(** * Verification of the response sanitizer of [server.js]

    The development embeds [sanitizeOutput] (server.js, lines 60-171) and the
    part of the ECMAScript regular-expression semantics it relies on:
    backtracking matching with priorities, the flags [g], [i] and [m],
    capture groups, lookahead, [String.prototype.replace], [split], [match],
    [trim] and [RegExp.prototype.test] with its [lastIndex] state.

    Strings are sequences of UTF-16 code units, as in JavaScript; none of the
    patterns carries the [u] flag, so matching works on code units. *)

From Stdlib Require Import String Ascii List NArith Bool Arith Lia.
Import ListNotations.

(** ** Code units and strings *)

Definition unit16 := N.
Definition jsstring := list unit16.

(** An ASCII literal of the development as a JavaScript string. *)
Definition js (s : string) : jsstring :=
  map N_of_ascii (list_ascii_of_string s).

Definition LF : unit16 := 10%N.
Definition CR : unit16 := 13%N.

Definition between (lo hi c : N) : bool := (lo <=? c)%N && (c <=? hi)%N.

(** WhiteSpace and LineTerminator code units: the set of [\s] and of [trim]. *)
Definition isSpace (c : unit16) : bool :=
  between 9 13 c || (c =? 32)%N || (c =? 160)%N || (c =? 5760)%N
  || between 8192 8202 c || (c =? 8232)%N || (c =? 8233)%N
  || (c =? 8239)%N || (c =? 8287)%N || (c =? 12288)%N || (c =? 65279)%N.

Definition isLineTerminator (c : unit16) : bool :=
  (c =? 10)%N || (c =? 13)%N || (c =? 8232)%N || (c =? 8233)%N.

Definition isDigit (c : unit16) : bool := between 48 57 c.

(** Word characters of [\b]: [A-Za-z0-9_]. *)
Definition isWordChar (c : unit16) : bool :=
  between 97 122 c || between 65 90 c || between 48 57 c || (c =? 95)%N.

(** Upper-case mapping of a single code unit, as case-insensitive matching
    uses it.  The letters of the patterns of [sanitizeOutput] are Basic
    Latin, Latin-1 and Greek letters.  The table lists the code units with a
    one-unit upper case in U+0041-U+03AB, hence every code unit whose upper
    case is that of a pattern character.  All other code units (caseless
    ones, those with a longer upper case such as sharp s, letters of other
    scripts) are their own image, which keeps them apart from every pattern
    character. *)
Definition toUpperCase (c : unit16) : unit16 :=
  if between 97 122 c then (c - 32)%N                       (* a-z *)
  else if (c =? 181)%N then 924%N                           (* micro sign *)
  else if between 224 254 c && negb (c =? 247)%N then (c - 32)%N
  else if (c =? 255)%N then 376%N
  else if between 940 940 c then 902%N
  else if between 941 943 c then (c - 37)%N
  else if between 945 961 c then (c - 32)%N                 (* alpha-rho *)
  else if (c =? 962)%N then 931%N                           (* final sigma *)
  else if between 963 971 c then (c - 32)%N                 (* sigma-upsilon *)
  else if (c =? 972)%N then 908%N
  else if between 973 974 c then (c - 63)%N
  else if (c =? 976)%N then 914%N                           (* beta symbol *)
  else if (c =? 977)%N then 920%N                           (* theta symbol *)
  else if (c =? 981)%N then 934%N                           (* phi symbol *)
  else if (c =? 982)%N then 928%N                           (* pi symbol *)
  else if (c =? 1008)%N then 922%N                          (* kappa symbol *)
  else if (c =? 1009)%N then 929%N                          (* rho symbol *)
  else if (c =? 1013)%N then 917%N                          (* lunate epsilon *)
  else c.

(** Canonicalize of the specification of RegExp without the [u] flag: a code
    unit of 128 or more never folds onto an ASCII one. *)
Definition canonicalize (c : unit16) : unit16 :=
  let cu := toUpperCase c in
  if (128 <=? c)%N && (cu <? 128)%N then c else cu.

(** ** Regular expressions *)

Inductive citem : Type :=
| CChar (c : unit16)
| CRange (lo hi : unit16)
| CSpace                     (* \s *)
| CNotSpace                  (* \S *)
| CDigit.                    (* \d *)

Inductive regex : Type :=
| Eps
| Chr (c : unit16)
| Any                                   (* . *)
| Class (neg : bool) (items : list citem)
| Seq (r1 r2 : regex)
| Alt (r1 r2 : regex)
| Star (greedy : bool) (r : regex)      (* r* and r*? *)
| Opt (r : regex)                       (* r? *)
| Group (i : nat) (r : regex)           (* the i-th capturing group *)
| Look (r : regex)                      (* (?=r) *)
| Bol                                   (* ^ *)
| Eol                                   (* $ *)
| WordB.                                (* \b *)

Definition Plus (r : regex) : regex := Seq r (Star true r).

Definition seqs (rs : list regex) : regex := fold_right Seq Eps rs.

Fixpoint alts (rs : list regex) : regex :=
  match rs with
  | [] => Class false []
  | [r] => r
  | r :: rs' => Alt r (alts rs')
  end.

Definition ch (a : ascii) : regex := Chr (N_of_ascii a).
Definition lit (s : string) : regex := seqs (map Chr (js s)).
Definition words (ws : list string) : regex := alts (map lit ws).
Definition cc (a : ascii) : citem := CChar (N_of_ascii a).
Definition cr (a b : ascii) : citem := CRange (N_of_ascii a) (N_of_ascii b).
Definition chars (s : string) : list citem := map CChar (js s).

(** The flags that change what a pattern matches; [g] is a property of the
    operation that uses the pattern. *)
Record flags : Type := Flags { ignoreCase : bool; multiline : bool }.

Definition f_   : flags := Flags false false.
Definition f_i  : flags := Flags true false.
Definition f_m  : flags := Flags false true.
Definition f_im : flags := Flags true true.

(** ** The matcher *)

(** A match state: the code unit before the current position, the input from
    the current position on, and the captures made so far. *)
Record mstate : Type := MkSt {
  prev : option unit16;
  rest : jsstring;
  caps : list (nat * jsstring)
}.

Definition units (lo hi : unit16) : list unit16 :=
  map N.of_nat (seq (N.to_nat lo) (S (N.to_nat hi) - N.to_nat lo)).

Definition chr_eq (fl : flags) (a c : unit16) : bool :=
  if ignoreCase fl then (canonicalize a =? canonicalize c)%N else (a =? c)%N.

Definition item_match (fl : flags) (it : citem) (c : unit16) : bool :=
  match it with
  | CChar a => chr_eq fl a c
  | CRange lo hi =>
      if ignoreCase fl
      then existsb (fun a => (canonicalize a =? canonicalize c)%N) (units lo hi)
      else between lo hi c
  | CSpace => isSpace c
  | CNotSpace => negb (isSpace c)
  | CDigit => isDigit c
  end.

Definition class_match (fl : flags) (neg : bool) (items : list citem)
    (c : unit16) : bool :=
  xorb neg (existsb (fun it => item_match fl it c) items).

Definition consume (st : mstate) (p : unit16 -> bool) : list mstate :=
  match rest st with
  | c :: tl => if p c then [MkSt (Some c) tl (caps st)] else []
  | [] => []
  end.

Definition guard (b : bool) (st : mstate) : list mstate :=
  if b then [st] else [].

Definition at_bol (fl : flags) (st : mstate) : bool :=
  match prev st with
  | None => true
  | Some c => multiline fl && isLineTerminator c
  end.

Definition at_eol (fl : flags) (st : mstate) : bool :=
  match rest st with
  | [] => true
  | c :: _ => multiline fl && isLineTerminator c
  end.

Definition at_wordb (st : mstate) : bool :=
  xorb (match prev st with Some c => isWordChar c | None => false end)
       (match rest st with c :: _ => isWordChar c | [] => false end).

(** An iteration of a quantifier with minimum 0 that consumes nothing is
    rejected. *)
Definition progress (st st' : mstate) : bool :=
  length (rest st') <? length (rest st).

Definition set_cap (i : nat) (v : jsstring) (cs : list (nat * jsstring)) :=
  (i, v) :: filter (fun p => negb (fst p =? i)) cs.

Definition capture (i : nat) (st st' : mstate) : mstate :=
  MkSt (prev st') (rest st')
       (set_cap i (firstn (length (rest st) - length (rest st')) (rest st))
                (caps st')).

(** Iterations of [r*]: every iteration consumes a code unit, hence at most
    [length (rest st)] of them can follow one another. *)
Fixpoint star_loop (greedy : bool) (f : mstate -> list mstate) (n : nat)
    (st : mstate) : list mstate :=
  match n with
  | 0 => [st]
  | S n' =>
      let more := flat_map (star_loop greedy f n') (filter (progress st) (f st)) in
      if greedy then more ++ [st] else st :: more
  end.

(** [rmatch fl r st] lists the states in which a match of [r] that starts in
    [st] can end, in the order in which backtracking tries them. *)
Fixpoint rmatch (fl : flags) (r : regex) (st : mstate) {struct r} : list mstate :=
  match r with
  | Eps => [st]
  | Chr a => consume st (chr_eq fl a)
  | Any => consume st (fun c => negb (isLineTerminator c))
  | Class neg items => consume st (class_match fl neg items)
  | Seq r1 r2 => flat_map (rmatch fl r2) (rmatch fl r1 st)
  | Alt r1 r2 => rmatch fl r1 st ++ rmatch fl r2 st
  | Star greedy r' => star_loop greedy (rmatch fl r') (length (rest st)) st
  | Opt r' => filter (progress st) (rmatch fl r' st) ++ [st]
  | Group i r' => map (capture i st) (rmatch fl r' st)
  | Look r' =>
      match rmatch fl r' st with
      | [] => []
      | st' :: _ => [MkSt (prev st) (rest st) (caps st')]
      end
  | Bol => guard (at_bol fl st) st
  | Eol => guard (at_eol fl st) st
  | WordB => guard (at_wordb st) st
  end.

(** The first match that starts at the current position. *)
Definition match_here (fl : flags) (r : regex) (p : option unit16)
    (s : jsstring) : option mstate :=
  hd_error (rmatch fl r (MkSt p s [])).

Definition matched_len (s : jsstring) (st : mstate) : nat :=
  length s - length (rest st).

(** ** String operations *)

(** A replacement text: literal code units and [$n] references. *)
Inductive titem : Type :=
| TLit (c : unit16)
| TGroup (i : nat).

Definition get_cap (i : nat) (cs : list (nat * jsstring)) : jsstring :=
  match find (fun p => fst p =? i) cs with
  | Some p => snd p
  | None => []
  end.

Definition expand (t : list titem) (st : mstate) : jsstring :=
  flat_map (fun it => match it with
                      | TLit c => [c]
                      | TGroup i => get_cap i (caps st)
                      end) t.

(** [s.replace(/r/g, t)].  The scan tries a match at every position from
    left to right; [skip] counts the code units of the last match that are
    still to be passed over.  After an empty match the code unit at that
    position is copied and the scan resumes behind it. *)
Fixpoint replace_go (fl : flags) (r : regex) (t : list titem)
    (p : option unit16) (s : jsstring) (skip : nat) {struct s} : jsstring :=
  match skip with
  | S k =>
      match s with
      | [] => []
      | c :: s' => replace_go fl r t (Some c) s' k
      end
  | 0 =>
      match match_here fl r p s with
      | None =>
          match s with
          | [] => []
          | c :: s' => c :: replace_go fl r t (Some c) s' 0
          end
      | Some st =>
          expand t st ++
          match s with
          | [] => []
          | c :: s' =>
              match matched_len s st with
              | 0 => c :: replace_go fl r t (Some c) s' 0
              | S k => replace_go fl r t (Some c) s' k
              end
          end
      end
  end.

Definition replace_all (fl : flags) (r : regex) (t : list titem)
    (s : jsstring) : jsstring :=
  replace_go fl r t None s 0.

(** [s.match(/r/g)]: the matched substrings ([null] is the empty list). *)
Fixpoint match_go (fl : flags) (r : regex) (p : option unit16) (s : jsstring)
    (skip : nat) {struct s} : list jsstring :=
  match skip with
  | S k =>
      match s with
      | [] => []
      | c :: s' => match_go fl r (Some c) s' k
      end
  | 0 =>
      match match_here fl r p s with
      | None =>
          match s with
          | [] => []
          | c :: s' => match_go fl r (Some c) s' 0
          end
      | Some st =>
          firstn (matched_len s st) s ::
          match s with
          | [] => []
          | c :: s' => match_go fl r (Some c) s' (pred (matched_len s st))
          end
      end
  end.

Definition match_all (fl : flags) (r : regex) (s : jsstring) : list jsstring :=
  match_go fl r None s 0.

(** The leftmost match at or after the current position. *)
Fixpoint search (fl : flags) (r : regex) (p : option unit16) (s : jsstring)
    {struct s} : option mstate :=
  match match_here fl r p s with
  | Some st => Some st
  | None =>
      match s with
      | [] => None
      | c :: s' => search fl r (Some c) s'
      end
  end.

(** [/r/.test(s)] for a pattern whose [lastIndex] is 0: a pattern without
    [g], or a literal evaluated just before the call. *)
Definition test (fl : flags) (r : regex) (s : jsstring) : bool :=
  match search fl r None s with Some _ => true | None => false end.

(** [re.test(s)] for a pattern object with the [g] flag: the search starts at
    [lastIndex], which becomes the end of the match, or 0 on failure. *)
Definition test_g (fl : flags) (r : regex) (s : jsstring) (lastIndex : nat)
    : bool * nat :=
  if length s <? lastIndex then (false, 0)
  else
    match search fl r (last (map Some (firstn lastIndex s)) None)
                 (skipn lastIndex s) with
    | Some st => (true, length s - length (rest st))
    | None => (false, 0)
    end.

(** [s.split(/r/)]: [acc] is the piece being collected, in reverse.  A match
    is tried at every position before the end; an empty match at the start
    of a piece is ignored. *)
Fixpoint split_go (fl : flags) (r : regex) (p : option unit16) (s : jsstring)
    (skip : nat) (acc : jsstring) {struct s} : list jsstring :=
  match s with
  | [] => [rev acc]
  | c :: s' =>
      match skip with
      | S k => split_go fl r (Some c) s' k acc
      | 0 =>
          match match_here fl r p s with
          | None => split_go fl r (Some c) s' 0 (c :: acc)
          | Some st =>
              match matched_len s st, acc with
              | 0, [] => split_go fl r (Some c) s' 0 [c]
              | 0, _ => rev acc :: split_go fl r (Some c) s' 0 [c]
              | S k, _ => rev acc :: split_go fl r (Some c) s' k []
              end
          end
      end
  end.

Definition split (fl : flags) (r : regex) (s : jsstring) : list jsstring :=
  match s with
  | [] => match match_here fl r None [] with Some _ => [] | None => [[]] end
  | _ => split_go fl r None s 0 []
  end.

Fixpoint trimStart (s : jsstring) : jsstring :=
  match s with
  | c :: s' => if isSpace c then trimStart s' else s
  | [] => []
  end.

Definition trimEnd (s : jsstring) : jsstring := rev (trimStart (rev s)).

Definition trim (s : jsstring) : jsstring := trimEnd (trimStart s).

(** [lines.join("\n")] *)
Fixpoint join (sep : jsstring) (l : list jsstring) : jsstring :=
  match l with
  | [] => []
  | [x] => x
  | x :: l' => x ++ sep ++ join sep l'
  end.

(** ** The patterns of [sanitizeOutput] *)

Definition sp : regex := Class false [CSpace].        (* \s *)
Definition digit : regex := Class false [CDigit].     (* \d *)
Definition litu (s : jsstring) : regex := seqs (map Chr s).

(** A pass of a [.replace] chain: flags, pattern, replacement. *)
Definition pass : Type := (flags * regex * list titem)%type.

Definition apply_pass (s : jsstring) (p : pass) : jsstring :=
  let '(fl, r, t) := p in replace_all fl r t s.

Definition run_passes (ps : list pass) (s : jsstring) : jsstring :=
  fold_left apply_pass ps s.

(** Character sets.  [0-9+\-*/=()] *)
Definition arith_items : list citem := cr "0" "9" :: chars "+-*/=()".

(** alpha beta gamma delta epsilon theta lambda mu rho sigma phi chi psi omega,
    capital delta, nabla, partial *)
Definition greek_items : list citem :=
  map CChar [945; 946; 947; 948; 949; 952; 955; 956; 961; 963; 966; 967; 968;
             969; 916; 8711; 8706]%N.

(** square root, pi, n-ary sum, integral *)
Definition operator_items : list citem := map CChar [8730; 960; 8721; 8747]%N.

(** Lines 114 and 121: [0-9+\-*/=()^] with the operator and Greek letters. *)
Definition formula_items : list citem :=
  arith_items ++ chars "^" ++ operator_items ++ greek_items.

(** Line 123: [xyzabcXYZABC] with the signs for at most, at least, unequal,
    almost equal, plus-minus, times, division and degree. *)
Definition notation_items : list citem :=
  chars "xyzabcXYZABC" ++ map CChar [8804; 8805; 8800; 8776; 177; 215; 247; 176]%N.

(** Lines 81 and 107: the math-symbol allow-list. *)
Definition math_items : list citem := formula_items ++ notation_items.

Definition bullet_items : list citem := CChar 8226%N :: chars "*-".

Definition qualifiers : list string :=
  ["Total"; "Per"; "Each"; "Initial"; "Final"; "Net"; "Average"; "Sum";
   "Difference"]%string.

(** Lines 85 and 138 *)
Definition re_multiword : regex :=
  seqs [WordB; Group 1 (words qualifiers); Plus sp;
        Plus (Class false [cr "a" "z"; cr "A" "Z"]); WordB].

(** Line 66 *)
Definition re_brackets : regex :=
  seqs [Opt (ch "\"); ch "["; Opt (ch "\"); ch "]"].
(** Line 67 *)
Definition re_dollar : regex := seqs [ch "$"; Opt (ch "$")].
(** Line 68 *)
Definition re_text : regex :=
  seqs [lit "\text{"; Star true (Class true [cc "}"]); ch "}"].
(** Line 69 *)
Definition re_frac : regex :=
  seqs [lit "\frac{"; Star true (Class true [cc "}"]); lit "}{";
        Star true (Class true [cc "}"]); ch "}"].
(** Line 71 *)
Definition re_line_comment : regex := seqs [lit "//"; Star true Any; Eol].
(** Line 72 *)
Definition re_block_comment : regex :=
  seqs [lit "/*"; Star false (Class false [CSpace; CNotSpace]); lit "*/"].
(** Line 73 *)
Definition re_hash : regex := seqs [ch "#"; Star true Any; Eol].
(** Line 75 *)
Definition re_numbering : regex :=
  seqs [Bol; Star true sp; Plus digit; ch "."; Star true sp].
(** Line 76 *)
Definition re_step : regex :=
  seqs [WordB;
        Group 1 (Alt (seqs [lit "Step"; Plus sp; Plus digit; ch ":"])
                     (seqs [lit "Step"; Plus sp; Plus digit]));
        WordB].
(** Line 78 *)
Definition re_discourse : regex :=
  seqs [WordB;
        Group 1 (words ["Therefore"; "Thus"; "Hence"; "So"; "Answer:";
                        "Solution:"; "Result:"; "Calculate"; "Apply"; "Total";
                        "Each"; "The"; "This"; "That"; "We"; "You"; "I"]%string);
        WordB].
(** Line 79 *)
Definition re_phrases : regex :=
  seqs [WordB;
        Group 1 (words ["The answer is"; "The result is"; "The solution is";
                        "We have"; "We get"; "We find"; "Note:"; "Note that";
                        "Apply the formula"; "Calculate the"; "Total apples";
                        "Total people"; "Each person"; "Each person can";
                        "can have"]%string);
        WordB].
(** Line 81 *)
Definition re_prose_line : regex :=
  seqs [Bol; Star true (Class true math_items); Eol].
(** Line 83 *)
Definition re_aside : regex :=
  seqs [ch "("; Star true (Class true [cc ")"]);
        words ["note"; "Note"; "explanation"; "Explanation"; "comment";
               "Comment"; "description"; "Description"]%string;
        Star true (Class true [cc ")"]); ch ")"].
(** Line 87 *)
Definition re_trailing_punct : regex :=
  seqs [Class false (chars ";:"); Look (Seq (Star true sp) Eol)].
(** Line 89 *)
Definition re_bullet_start : regex :=
  seqs [Bol; Star true sp; Class false bullet_items; Plus sp].
(** Line 90 *)
Definition re_bullet_end : regex :=
  seqs [Star true sp; Class false bullet_items; Star true sp; Eol].
(** Line 91 *)
Definition re_blanks : regex :=
  Plus (Class true [CNotSpace; CChar CR; CChar LF]).

Definition SPACE : list titem := [TLit 32%N].

(** Lines 64-91: the whole-text passes, in the order of the chain. *)
Definition stageA : list pass :=
  [ (f_,   re_brackets,       []);
    (f_,   re_dollar,         []);
    (f_,   re_text,           []);
    (f_,   re_frac,           []);
    (f_m,  re_line_comment,   []);
    (f_,   re_block_comment,  []);
    (f_m,  re_hash,           []);
    (f_m,  re_numbering,      []);
    (f_i,  re_step,           []);
    (f_i,  re_discourse,      []);
    (f_i,  re_phrases,        []);
    (f_m,  re_prose_line,     []);
    (f_i,  re_aside,          []);
    (f_i,  re_multiword,      []);
    (f_m,  re_trailing_punct, []);
    (f_m,  re_bullet_start,   []);
    (f_m,  re_bullet_end,     []);
    (f_,   re_blanks,         SPACE) ].

Definition cleaned (raw : jsstring) : jsstring := run_passes stageA raw.

(** Line 94 *)
Definition equipmentPattern : regex :=
  seqs [WordB;
        Group 1 (words ["spectrophotometer"; "calorimeter"; "oscilloscope";
          "voltmeter"; "ammeter"; "multimeter"; "thermometer"; "barometer";
          "manometer"; "burette"; "pipette"; "beaker"; "flask"; "test tube";
          "microscope"; "telescope"; "laser"; "prism"; "lens"; "mirror";
          "resistor"; "capacitor"; "inductor"; "transformer"; "generator";
          "motor"; "sensor"; "detector"; "analyzer"; "chromatograph";
          "mass spectrometer"; "NMR"; "IR"; "UV"; "X-ray";
          "electron microscope"]%string);
        WordB].

(** Line 97; o with diaeresis is 246 and o with circumflex is 244. *)
Definition methodPattern : regex :=
  seqs [WordB;
        Group 1 (alts (
          map lit ["integration"; "differentiation"; "derivative"; "integral";
            "substitution"; "quadratic formula"; "Pythagorean theorem";
            "Newton"; "conservation"; "momentum"; "energy"; "force";
            "acceleration"; "velocity"; "displacement"; "kinematics";
            "dynamics"; "thermodynamics"; "electrostatics"; "magnetism";
            "optics"; "quantum"; "relativity"; "stoichiometry"; "equilibrium";
            "reaction"; "oxidation"; "reduction"; "acid"; "base"; "pH";
            "molarity"; "molar mass"; "Avogadro"; "ideal gas"; "Boyle";
            "Charles"; "Gay-Lussac"; "Ohm"; "Kirchhoff"; "Faraday"; "Maxwell";
            "Einstein"]%string
          ++ [litu (js "Schr" ++ [246%N] ++ js "dinger")]
          ++ map lit ["Heisenberg"; "Bohr"; "Planck"; "de Broglie"; "Fourier";
            "Laplace"; "Taylor"; "Maclaurin"]%string
          ++ [litu (js "L'H" ++ [244%N] ++ js "pital")]
          ++ map lit ["chain rule"; "product rule"; "quotient rule";
            "integration by parts"; "partial fractions";
            "trigonometric substitution"; "u-substitution"]%string));
        WordB].

(** Line 113 *)
Definition re_descriptive : regex :=
  seqs [WordB;
        Group 1 (words ["Total"; "Each"; "Per"; "Apply"; "Calculate"; "Step";
                        "The"; "This"; "That"; "We"; "You"; "I"; "can"; "have";
                        "is"; "are"; "was"; "were"]%string);
        WordB].
(** Line 117 *)
Definition re_truefalse : regex :=
  seqs [Bol; Group 1 (words ["True"; "False"]%string); Eol].
(** Line 119 *)
Definition re_choice : regex := seqs [Bol; Class false [cr "A" "E"]; Eol].
(** Line 129; the last set ends with superscript two and three. *)
Definition re_formula : regex :=
  seqs [Class false (cr "a" "z" :: cr "A" "Z" :: greek_items);
        Star true sp;
        Class false (chars "=<>" ++ map CChar [8804; 8805; 8800; 8776]%N);
        Star true sp;
        Class false (cr "a" "z" :: cr "A" "Z" :: cr "0" "9" :: greek_items
                     ++ chars "+-*/()^" ++ operator_items
                     ++ map CChar [178; 179]%N)].

(** ** Line filtering (lines 100-132) *)

(** The two pattern objects with the [g] flag are created once per call and
    shared by all calls of the filter callback: their [lastIndex] is state. *)
Record patState : Type := PatState {
  equipmentLastIndex : nat;
  methodLastIndex : nat
}.

Definition freshPatterns : patState := PatState 0 0.

Definition mathSymbols (line : jsstring) : nat :=
  length (match_all f_ (Class false math_items) line).

Definition textWords (line : jsstring) : nat :=
  length (split f_ (Plus sp) line).

(** The callback of [.filter]: the decision and the state it leaves. *)
Definition keepLine (ps : patState) (line : jsstring) : bool * patState :=
  match line with
  | [] => (false, ps)
  | _ =>
    if (mathSymbols line * 2 <? textWords line) && (mathSymbols line <? 3)
    then (false, ps)
    else if test f_i re_descriptive line
            && negb (test f_i (Class false formula_items) line)
    then (false, ps)
    else if test f_i re_truefalse line then (true, ps)
    else if test f_i re_choice line then (true, ps)
    else if test f_i (Class false formula_items) line then (true, ps)
    else if test f_i (Class false notation_items) line then (true, ps)
    else
      let (eq, ei) := test_g f_i equipmentPattern line (equipmentLastIndex ps) in
      let ps1 := PatState ei (methodLastIndex ps) in
      if eq && test f_i (Class false arith_items) line then (true, ps1)
      else
        let (me, mi) := test_g f_i methodPattern line (methodLastIndex ps1) in
        let ps2 := PatState (equipmentLastIndex ps1) mi in
        if me && test f_i (Class false arith_items) line then (true, ps2)
        else if test f_i re_formula line then (true, ps2)
        else (false, ps2)
  end.

Fixpoint filterLines (ps : patState) (lines : list jsstring)
    : list jsstring * patState :=
  match lines with
  | [] => ([], ps)
  | l :: ls =>
      let (k, ps1) := keepLine ps l in
      let (kept, ps2) := filterLines ps1 ls in
      (if k then l :: kept else kept, ps2)
  end.

Definition re_newline : regex := seqs [Opt (Chr CR); Chr LF].

Definition lines (text : jsstring) : list jsstring := split f_ re_newline text.

Definition filteredLines (ps : patState) (text : jsstring) : list jsstring :=
  fst (filterLines ps (map trim (lines text))).

(** ** Variable normalization (lines 135-164) *)

Definition subscripts : list string :=
  ["initial"; "final"; "total"; "net"; "max"; "min"; "avg"; "average"; "sum";
   "diff"; "delta"; "change"; "i"; "f"]%string.

Definition greek_subscripts : list string :=
  ["initial"; "final"; "total"; "net"; "max"; "min"; "avg"; "i"; "f"]%string.

Definition letter : regex := Class false [cr "a" "z"; cr "A" "Z"].

Definition JOIN : list titem := [TGroup 1; TGroup 2].

(** Line 141 *)
Definition re_letter_digit : regex :=
  seqs [WordB; Group 1 letter; Plus sp; Group 2 (Plus digit); WordB].
(** Line 144 *)
Definition re_letter_sub : regex :=
  seqs [WordB; Group 1 letter; Plus sp; Group 2 (words subscripts); WordB].
(** Line 147 *)
Definition re_greek_digit : regex :=
  seqs [Group 1 (Class false greek_items); Plus sp; Group 2 (Plus digit)].
(** Line 150 *)
Definition re_greek_sub : regex :=
  seqs [Group 1 (Class false greek_items); Plus sp;
        Group 2 (words greek_subscripts); WordB].
(** Line 153 *)
Definition re_letter_word : regex :=
  seqs [WordB; Group 1 (Class false [cr "A" "Z"; cr "a" "z"]); Plus sp;
        Group 2 (Plus (Class false [cr "a" "z"])); WordB;
        Look (Alt (Seq (Star true sp) (Class false (chars "=+-*/()"))) Eol)].
(** Line 156 *)
Definition re_trailing_sep : regex :=
  seqs [Star true sp; Class false (chars ";,"); Star true sp; Eol].
(** Line 157; the apostrophe is 39 and the quotation mark 34. *)
Definition re_quotes : regex :=
  Alt (Seq Bol (Plus (Class false [CChar 39%N; CChar 34%N])))
      (Seq (Plus (Class false [CChar 39%N; CChar 34%N])) Eol).
(** Line 158 *)
Definition re_ticks : regex := Class false (chars "`~").
(** Line 161 *)
Definition re_spaces : regex := Plus (Class false [CChar 32%N; CChar 9%N]).

Definition stageC : list pass :=
  [ (f_i, re_multiword,    []);
    (f_,  re_letter_digit, JOIN);
    (f_i, re_letter_sub,   JOIN);
    (f_,  re_greek_digit,  JOIN);
    (f_i, re_greek_sub,    JOIN);
    (f_,  re_letter_word,  JOIN);
    (f_,  re_trailing_sep, []);
    (f_,  re_quotes,       []);
    (f_,  re_ticks,        []);
    (f_,  re_spaces,       SPACE) ].

Definition normalizeVariables (line : jsstring) : jsstring :=
  trim (run_passes stageC line).

(** ** The sanitizer *)

(** Lines 100-170 for a given state of the two pattern objects. *)
Definition sanitizeFrom (ps : patState) (raw : jsstring) : jsstring :=
  trim (join [LF] (map normalizeVariables (filteredLines ps (cleaned raw)))).

(** The body of [sanitizeOutput] with the two pattern objects in any state. *)
Definition sanitizeOutputWith (ps : patState) (raw : jsstring) : jsstring :=
  match raw with
  | [] => []                                   (* if (!raw) return "" *)
  | _ => sanitizeFrom ps raw
  end.

(** [sanitizeOutput] creates the two pattern objects at each call. *)
Definition sanitizeOutput (raw : jsstring) : jsstring :=
  match raw with
  | [] => []                                   (* if (!raw) return "" *)
  | _ => sanitizeFrom freshPatterns raw
  end.


(** The pass of line 69 alone. *)
Definition strip_frac (s : jsstring) : jsstring := replace_all f_ re_frac [] s.

(** The decision of the filter callback when both patterns have
    [lastIndex] 0. *)
Definition keep (line : jsstring) : bool := fst (keepLine freshPatterns line).

(** ** Notions used in the statements and proofs *)

(** Two lines separated by a line feed. *)
Definition nl (a b : jsstring) : jsstring := a ++ [LF] ++ b.

(** [x] does not occur in [s]. *)
Definition lacks (x : unit16) (s : jsstring) : bool :=
  forallb (fun c => negb (c =? x)%N) s.

(** The text [\frac{A}{B}]. *)
Definition frac_macro (A B : jsstring) : jsstring :=
  js "\frac{" ++ A ++ js "}{" ++ B ++ js "}".

(** Membership in the math-symbol allow-list of lines 81 and 107, and text
    without any character of it. *)
Definition isMath (c : unit16) : bool := class_match f_ false math_items c.

Definition mathFree (s : jsstring) : Prop := Forall (fun c => isMath c = false) s.

Definition mathFreeb (s : jsstring) : bool := forallb (fun c => negb (isMath c)) s.


(** States, replacement texts and passes all of whose code units satisfy a
    predicate. *)
Definition caps_ok (P : unit16 -> Prop) (cs : list (nat * jsstring)) : Prop :=
  Forall (fun p => Forall P (snd p)) cs.

Definition st_ok (P : unit16 -> Prop) (st : mstate) : Prop :=
  Forall P (rest st) /\ caps_ok P (caps st).

Definition titem_ok (P : unit16 -> Prop) (it : titem) : Prop :=
  match it with TLit c => P c | TGroup _ => True end.

Definition pass_ok (P : unit16 -> Prop) (p : pass) : Prop :=
  Forall (titem_ok P) (snd p).

(** [leads fl r st y]: the first match of [r] that backtracking finds from
    [st] ends in [y]. *)
Definition leads (fl : flags) (r : regex) (st y : mstate) : Prop :=
  exists more, rmatch fl r st = y :: more.

(** Patterns that do not look at the code unit before the current position. *)
Fixpoint ctxfree (r : regex) : bool :=
  match r with
  | Bol | WordB => false
  | Seq r1 r2 | Alt r1 r2 => ctxfree r1 && ctxfree r2
  | Star _ r' | Opt r' | Group _ r' | Look r' => ctxfree r'
  | _ => true
  end.

(** A state without its left context. *)
Definition forget (st : mstate) : mstate := MkSt None (rest st) (caps st).

(** ** Notions used in the further properties *)

(** The passes of the chain of lines 64-91 by their line. *)
Definition strip_brackets (s : jsstring) : jsstring := replace_all f_ re_brackets [] s.
Definition strip_dollar (s : jsstring) : jsstring := replace_all f_ re_dollar [] s.
Definition strip_text (s : jsstring) : jsstring := replace_all f_ re_text [] s.
Definition strip_line_comment (s : jsstring) : jsstring :=
  replace_all f_m re_line_comment [] s.
Definition strip_hash (s : jsstring) : jsstring := replace_all f_m re_hash [] s.
Definition strip_numbering (s : jsstring) : jsstring :=
  replace_all f_m re_numbering [] s.
Definition strip_prose (s : jsstring) : jsstring :=
  replace_all f_m re_prose_line [] s.

Definition collapse_blanks (s : jsstring) : jsstring :=
  replace_all f_ re_blanks SPACE s.

(** The passes of lines 158 and 161 of [normalizeVariables]. *)
Definition strip_ticks (s : jsstring) : jsstring := replace_all f_ re_ticks [] s.
Definition collapse_spaces (s : jsstring) : jsstring :=
  replace_all f_ re_spaces SPACE s.

(** The text [\text{A}]. *)
Definition text_macro (A : jsstring) : jsstring := js "\text{" ++ A ++ js "}".

(** Every maximal run of code units that satisfy [p] becomes one space;
    [inrun] tells that the code unit before belongs to such a run. *)
Fixpoint squeeze_go (p : unit16 -> bool) (inrun : bool) (s : jsstring) : jsstring :=
  match s with
  | [] => []
  | c :: s' =>
      if p c then (if inrun then squeeze_go p true s' else 32%N :: squeeze_go p true s')
      else c :: squeeze_go p false s'
  end.

Definition squeeze (p : unit16 -> bool) (s : jsstring) : jsstring :=
  squeeze_go p false s.

(** The longest prefix of code units that satisfy [p], and what follows it. *)
Fixpoint takeRun (p : unit16 -> bool) (s : jsstring) : jsstring :=
  match s with
  | c :: s' => if p c then c :: takeRun p s' else []
  | [] => []
  end.

Fixpoint dropRun (p : unit16 -> bool) (s : jsstring) : jsstring :=
  match s with
  | c :: s' => if p c then dropRun p s' else s
  | [] => []
  end.

(** No two spaces follow one another. *)
Fixpoint no_double_space (s : jsstring) : bool :=
  match s with
  | a :: (b :: _) as t => negb ((a =? 32)%N && (b =? 32)%N) && no_double_space t
  | _ => true
  end.

(** The sets of the passes of lines 91, 161 and 158 as predicates. *)
Definition blank (c : unit16) : bool :=
  isSpace c && negb (c =? 13)%N && negb (c =? 10)%N.

Definition space_or_tab (c : unit16) : bool := (c =? 32)%N || (c =? 9)%N.

Definition tick (c : unit16) : bool := (c =? 96)%N || (c =? 126)%N.

(** The white space that [collapse_blanks] leaves: space, CR and LF. *)
Definition plain_space (c : unit16) : bool :=
  negb (isSpace c) || (c =? 32)%N || (c =? 13)%N || (c =? 10)%N.

(** The tests of the filter callback, by their line. *)
Definition sparse (line : jsstring) : bool :=                       (* line 110 *)
  (mathSymbols line * 2 <? textWords line) && (mathSymbols line <? 3).

Definition descriptive (line : jsstring) : bool :=                  (* lines 113-114 *)
  test f_i re_descriptive line && negb (test f_i (Class false formula_items) line).

(** A string that does not start with white space. *)
Definition edge_clean (s : jsstring) : bool :=
  match s with
  | c :: _ => negb (isSpace c)
  | [] => true
  end.

(** A string that starts with a space. *)
Definition hd_space (s : jsstring) : bool :=
  match s with c :: _ => (c =? 32)%N | [] => false end.

(** [w] is a prefix of [s]; [w] occurs in [s]. *)
Fixpoint starts (w s : jsstring) : bool :=
  match w, s with
  | [], _ => true
  | a :: w', c :: s' => (a =? c)%N && starts w' s'
  | _ :: _, [] => false
  end.

Fixpoint occurs (w s : jsstring) : bool :=
  starts w s || match s with [] => false | _ :: s' => occurs w s' end.

(** The code units of a line: no line terminator among them. *)
Definition one_line (s : jsstring) : bool :=
  forallb (fun c => negb (isLineTerminator c)) s.

(** The end of a line: the end of the text or a line terminator. *)
Definition at_line_end (s : jsstring) : bool :=
  match s with [] => true | c :: _ => isLineTerminator c end.

(** The total length of the captures of a state. *)
Definition capsum (cs : list (nat * jsstring)) : nat :=
  list_sum (map (fun p => length (snd p)) cs).

(** Patterns without capturing groups, and patterns whose groups are neither
    nested nor under a quantifier or a lookahead. *)
Fixpoint groupfree (r : regex) : bool :=
  match r with
  | Group _ _ => false
  | Seq r1 r2 | Alt r1 r2 => groupfree r1 && groupfree r2
  | Star _ r' | Opt r' | Look r' => groupfree r'
  | _ => true
  end.

Fixpoint flat (r : regex) : bool :=
  match r with
  | Group _ r' => groupfree r'
  | Seq r1 r2 | Alt r1 r2 => flat r1 && flat r2
  | Star _ r' | Opt r' | Look r' => groupfree r'
  | _ => true
  end.

(** The length of [join [LF] l]. *)
Definition joined_length (l : list jsstring) : nat :=
  list_sum (map (@length unit16) l) + pred (length l).

(** A pass that never lengthens its subject. *)
Definition pass_short (p : pass) : Prop :=
  forall s, length (apply_pass s p) <= length s.

(** ** The request handler (lines 173-225) *)

(** A field of the request body or of the model response: absent
    ([undefined] or [null]), a string, or a value of another type, given by
    its truthiness and its conversion to a string. *)
Inductive jsvalue : Type :=
| VAbsent
| VString (s : jsstring)
| VOther (truthy : bool) (text : jsstring).

Definition truthy (v : jsvalue) : bool :=
  match v with
  | VAbsent => false
  | VString [] => false
  | VString (_ :: _) => true
  | VOther t _ => t
  end.

Definition toText (v : jsvalue) : jsstring :=
  match v with
  | VAbsent => js "undefined"
  | VString s => s
  | VOther _ t => t
  end.

Record body : Type := Body { subject : jsvalue; prompt : jsvalue; image : jsvalue }.

(** A part of the user message. *)
Inductive part : Type :=
| PText (text : jsvalue)
| PImage (url : jsvalue).

(** The argument of [client.chat.completions.create]; the temperature 0.3
    is given in tenths. *)
Record request : Type := Request {
  model : jsstring;
  system : jsstring;
  user : list part;
  max_tokens : nat;
  temperature_tenths : nat
}.

(** What the call gives: a rejection, a resolution with [null] or
    [undefined], or a response object, of which the handler reads
    [choices?.[0]?.message?.content]. *)
Inductive outcome : Type :=
| Rejected
| Nullish
| Resolved (content : jsvalue).

Inductive payload : Type :=
| Result (result : jsstring)
| Error (error : jsstring).

Record reply : Type := Reply { status : nat; sent : payload }.

Definition QUOTE : jsstring := [34%N].

(** Line 188 *)
Definition instruction (subject : jsvalue) : jsstring :=
  js "Subject: "
  ++ (if truthy subject then toText subject else js "unspecified")
  ++ js "." ++ [LF]
  ++ js "Solve the following problems. Output ONLY professional mathematical formulas, calculations, and results. Use single-letter or single-word variables (e.g., n, a, x, v0, not "
  ++ QUOTE ++ js "Total apples" ++ QUOTE ++ js " or " ++ QUOTE
  ++ js "Apples per person" ++ QUOTE
  ++ js "). NO descriptive text, NO step numbers, NO explanations, NO LaTeX markers. Only formulas and results.".

(** Lines 181-208 *)
Definition messages (b : body) : list part :=
  [PText (VString (instruction (subject b)))]
  ++ (if truthy (prompt b) then [PText (prompt b)] else [])
  ++ (if truthy (image b) then [PImage (image b)] else []).

Definition build (SYSTEM_PROMPT : jsstring) (b : body) : request :=
  Request (js "gpt-4o-mini") SYSTEM_PROMPT (messages b) 1000 3.

Definition internal_error : reply := Reply 500 (Error (js "Internal server error")).

(** The handler: the reply and the calls made to the model client.
    [req_body] is [None] when no body was parsed ([req.body] is
    [undefined]): the destructuring of line 175 raises.  A response that is
    [null] or [undefined] makes line 217 raise, and a content that is truthy
    and not a string makes [sanitizeOutput] raise.  The [catch] turns each of
    these into the reply 500; its [console.error] is not part of the reply
    and is left out. *)
Definition solve (SYSTEM_PROMPT : jsstring) (client : request -> outcome)
    (req_body : option body) : reply * list request :=
  match req_body with
  | None => (internal_error, [])
  | Some b =>
    if negb (truthy (prompt b)) && negb (truthy (image b))
    then (Reply 400 (Error (js "Prompt or image is required")), [])
    else
      let rq := build SYSTEM_PROMPT b in
      match client rq with
      | Rejected => (internal_error, [rq])
      | Nullish => (internal_error, [rq])
      | Resolved content =>
          if truthy content
          then match content with
               | VString s => (Reply 200 (Result (sanitizeOutput s)), [rq])
               | _ => (internal_error, [rq])
               end
          else (Reply 200 (Result (sanitizeOutput [])), [rq])
      end
  end.

(** The result of a reply, if it has one. *)
Definition result_of (r : reply) : option jsstring :=
  match sent r with Result s => Some s | Error _ => None end.

(** The passes of lines 72, 87 and 89. *)
Definition strip_block_comment (s : jsstring) : jsstring :=
  replace_all f_ re_block_comment [] s.
Definition strip_trailing_punct (s : jsstring) : jsstring :=
  replace_all f_m re_trailing_punct [] s.
Definition strip_bullet_start (s : jsstring) : jsstring :=
  replace_all f_m re_bullet_start [] s.

(** The sets of lines 89 and 87 as predicates. *)
Definition is_bullet (c : unit16) : bool :=
  (c =? 8226)%N || (c =? 42)%N || (c =? 45)%N.

Definition is_punct (c : unit16) : bool := (c =? 59)%N || (c =? 58)%N.

(** ** Properties of the matcher *)

(** A match never ends before the position where it starts. *)
Lemma consume_length st p st' :
  In st' (consume st p) -> length (rest st') < length (rest st).
Proof.
  unfold consume. destruct (rest st) as [|c tl] eqn:E; [intros []|].
  destruct (p c); [|intros []].
  intros [<-|[]]. simpl. lia.
Qed.

Lemma star_loop_length g f :
  (forall st st', In st' (f st) -> length (rest st') <= length (rest st)) ->
  forall n st st',
    In st' (star_loop g f n st) -> length (rest st') <= length (rest st).
Proof.
  intros Hf. induction n as [|n IH]; intros st st' H; simpl in H.
  - destruct H as [<-|[]]. lia.
  - assert (Hmore : In st' (flat_map (star_loop g f n)
                              (filter (progress st) (f st))) ->
                    length (rest st') <= length (rest st)).
    { intros Hin. apply in_flat_map in Hin. destruct Hin as (x & Hx & Hin).
      apply filter_In in Hx. destruct Hx as [Hx _].
      apply IH in Hin. apply Hf in Hx. lia. }
    destruct g.
    + apply in_app_or in H. destruct H as [H|[<-|[]]]; [auto | lia].
    + destruct H as [<-|H]; [lia | auto].
Qed.

Lemma guard_length b st st' :
  In st' (guard b st) -> length (rest st') <= length (rest st).
Proof.
  unfold guard. destruct b; [intros [<-|[]]; lia | intros []].
Qed.

Lemma rmatch_length fl r :
  forall st st', In st' (rmatch fl r st) -> length (rest st') <= length (rest st).
Proof.
  induction r; intros st st' H; simpl in H;
    try (apply consume_length in H; lia);
    try (apply guard_length in H; exact H).
  - destruct H as [<-|[]]. lia.
  - apply in_flat_map in H. destruct H as (x & Hx & H).
    apply IHr1 in Hx. apply IHr2 in H. lia.
  - apply in_app_or in H. destruct H; auto.
  - eapply star_loop_length; eauto.
  - apply in_app_or in H. destruct H as [H|[<-|[]]]; [|lia].
    apply filter_In in H. destruct H. auto.
  - apply in_map_iff in H. destruct H as (x & <- & Hx). simpl. auto.
  - destruct (rmatch fl r st) as [|x l]; [destruct H|].
    destruct H as [<-|[]]. simpl. lia.
Qed.

Lemma filter_progress_nil (st : mstate) (l : list mstate) :
  rest st = [] -> filter (progress st) l = [].
Proof.
  intros E. induction l as [|x l IH]; simpl; [reflexivity|].
  unfold progress at 1. rewrite E. simpl.
  destruct (length (rest x) <? 0) eqn:H; [|exact IH].
  apply Nat.ltb_lt in H. lia.
Qed.

Lemma flat_map_ext_In (A B : Type) (f g : A -> list B) (l : list A) :
  (forall x, In x l -> f x = g x) -> flat_map f l = flat_map g l.
Proof.
  induction l as [|x l IH]; intros H; simpl; [reflexivity|].
  rewrite (H x) by (left; reflexivity).
  rewrite IH by (intros y Hy; apply H; right; exact Hy). reflexivity.
Qed.

(** The bound on the iterations of a star cuts nothing off: any larger bound
    gives the same matches. *)
Lemma star_loop_fuel g f :
  (forall st st', In st' (f st) -> length (rest st') <= length (rest st)) ->
  forall n m st,
    length (rest st) <= n -> length (rest st) <= m ->
    star_loop g f n st = star_loop g f m st.
Proof.
  intros Hf.
  assert (Hzero : forall m st, rest st = [] -> star_loop g f m st = [st]).
  { intros [|m] st E; simpl; [reflexivity|].
    rewrite filter_progress_nil by exact E. destruct g; reflexivity. }
  induction n as [|n IH]; intros m st Hn Hm.
  - assert (E : rest st = []) by (destruct (rest st); simpl in *; [easy | lia]).
    rewrite (Hzero 0 st E), (Hzero m st E). reflexivity.
  - destruct m as [|m].
    + assert (E : rest st = []) by (destruct (rest st); simpl in *; [easy | lia]).
      rewrite (Hzero (S n) st E), (Hzero 0 st E). reflexivity.
    + simpl.
      assert (Hext : flat_map (star_loop g f n) (filter (progress st) (f st))
                     = flat_map (star_loop g f m) (filter (progress st) (f st))).
      { apply flat_map_ext_In. intros x Hx. apply filter_In in Hx.
        destruct Hx as [_ Hx]. unfold progress in Hx. apply Nat.ltb_lt in Hx.
        apply IH; lia. }
      rewrite Hext. reflexivity.
Qed.

Lemma star_fuel_enough fl g r n st :
  length (rest st) <= n ->
  rmatch fl (Star g r) st = star_loop g (rmatch fl r) n st.
Proof.
  intros H. simpl. apply star_loop_fuel; [apply rmatch_length | lia | exact H].
Qed.

(** *** What a match can contain *)

Section Invariant.

Variable P : unit16 -> Prop.

Lemma Forall_firstn (n : nat) (l : jsstring) :
  Forall P l -> Forall P (firstn n l).
Proof.
  revert n. induction l as [|c l IH]; intros [|n] H; simpl; auto.
  inversion H; subst. constructor; auto.
Qed.

Lemma Forall_filter_keep (A : Type) (Q : A -> Prop) (f : A -> bool) l :
  Forall Q l -> Forall Q (filter f l).
Proof. apply incl_Forall, incl_filter. Qed.

Lemma consume_ok st p : (st_ok P) st -> Forall (st_ok P) (consume st p).
Proof.
  intros [Hr Hc]. unfold consume.
  destruct (rest st) as [|c tl]; [constructor|].
  destruct (p c); constructor; [|constructor].
  split; simpl; [inversion Hr; assumption | exact Hc].
Qed.

Lemma guard_ok b st : (st_ok P) st -> Forall (st_ok P) (guard b st).
Proof. intros H. destruct b; simpl; auto. Qed.

Lemma capture_ok i st st' : (st_ok P) st -> (st_ok P) st' -> (st_ok P) (capture i st st').
Proof.
  intros [Hr _] [Hr' Hc']. split; simpl; [exact Hr'|].
  unfold set_cap. constructor.
  - simpl. apply Forall_firstn. exact Hr.
  - apply Forall_filter_keep. exact Hc'.
Qed.

Lemma star_loop_ok g f :
  (forall st, (st_ok P) st -> Forall (st_ok P) (f st)) ->
  forall n st, (st_ok P) st -> Forall (st_ok P) (star_loop g f n st).
Proof.
  intros Hf. induction n as [|n IH]; intros st H; simpl; [auto|].
  assert (Hmore : Forall (st_ok P) (flat_map (star_loop g f n)
                                  (filter (progress st) (f st)))).
  { apply Forall_flat_map. apply Forall_filter_keep.
    eapply Forall_impl; [|apply Hf; exact H]. intros x Hx. apply IH, Hx. }
  destruct g; [apply Forall_app; auto | constructor; auto].
Qed.

Lemma rmatch_ok fl r : forall st, (st_ok P) st -> Forall (st_ok P) (rmatch fl r st).
Proof.
  induction r; intros st H; simpl;
    try (apply consume_ok; exact H); try (apply guard_ok; exact H).
  - auto.
  - apply Forall_flat_map. eapply Forall_impl; [|apply IHr1; exact H].
    intros x Hx. apply IHr2, Hx.
  - apply Forall_app; auto.
  - apply star_loop_ok; auto.
  - apply Forall_app; split; [apply Forall_filter_keep; auto | auto].
  - apply Forall_map. eapply Forall_impl; [|apply IHr; exact H].
    intros x Hx. apply capture_ok; assumption.
  - specialize (IHr st H). destruct (rmatch fl r st) as [|x l]; [constructor|].
    constructor; [|constructor]. inversion IHr; subst.
    destruct H as [Hr _]. destruct H2 as [_ Hc]. split; assumption.
Qed.

Lemma match_here_ok fl r p s st :
  Forall P s -> match_here fl r p s = Some st -> (st_ok P) st.
Proof.
  intros Hs H. unfold match_here in H.
  assert (Hall : Forall (st_ok P) (rmatch fl r (MkSt p s []))).
  { apply rmatch_ok. split; simpl; [exact Hs | constructor]. }
  destruct (rmatch fl r (MkSt p s [])) as [|x l]; [discriminate|].
  simpl in H. injection H as <-. inversion Hall; assumption.
Qed.

Lemma get_cap_ok i cs : (caps_ok P) cs -> Forall P (get_cap i cs).
Proof.
  intros H. unfold get_cap.
  destruct (find (fun p => fst p =? i) cs) as [p|] eqn:E; [|constructor].
  apply find_some in E. destruct E as [E _].
  unfold caps_ok in H. rewrite Forall_forall in H. apply (H p E).
Qed.

Lemma expand_ok t st : Forall (titem_ok P) t -> (st_ok P) st -> Forall P (expand t st).
Proof.
  intros Ht [_ Hc]. unfold expand. apply Forall_flat_map.
  eapply Forall_impl; [|exact Ht].
  intros [c|i] H; simpl in *; [auto | apply get_cap_ok; exact Hc].
Qed.

(** Every code unit of the result of a replacement comes from the subject
    or from the replacement text. *)
Lemma replace_go_ok fl r t :
  Forall (titem_ok P) t ->
  forall s p skip, Forall P s -> Forall P (replace_go fl r t p s skip).
Proof.
  intros Ht. induction s as [|c s IH]; intros p skip Hs.
  - destruct skip; simpl; [|constructor].
    destruct (match_here fl r p []) as [st|] eqn:E; [|constructor].
    rewrite app_nil_r. apply expand_ok; [exact Ht|].
    eapply match_here_ok; [|exact E]. exact Hs.
  - inversion Hs; subst. destruct skip as [|k]; simpl; [|auto].
    destruct (match_here fl r p (c :: s)) as [st|] eqn:E.
    + apply Forall_app; split.
      * apply expand_ok; [exact Ht|].
        eapply match_here_ok; [|exact E]. exact Hs.
      * destruct (matched_len (c :: s) st); auto.
    + constructor; auto.
Qed.

Lemma replace_all_ok fl r t s :
  Forall (titem_ok P) t -> Forall P s -> Forall P (replace_all fl r t s).
Proof. intros Ht Hs. apply replace_go_ok; assumption. Qed.

Lemma run_passes_ok ps :
  Forall (pass_ok P) ps -> forall s, Forall P s -> Forall P (run_passes ps s).
Proof.
  unfold run_passes. induction ps as [|[[fl r] t] ps IH]; intros Hps s Hs; simpl.
  - exact Hs.
  - inversion Hps; subst. apply IH; [assumption|].
    apply replace_all_ok; assumption.
Qed.

Lemma split_go_ok fl r :
  forall s p skip acc,
    Forall P s -> Forall P acc -> Forall (Forall P) (split_go fl r p s skip acc).
Proof.
  induction s as [|c s IH]; intros p skip acc Hs Hacc; simpl.
  - constructor; [apply Forall_rev; exact Hacc | constructor].
  - inversion Hs; subst. destruct skip as [|k]; [|auto].
    destruct (match_here fl r p (c :: s)) as [st|]; [|auto].
    destruct (matched_len (c :: s) st) as [|k].
    + destruct acc as [|a acc]; [auto|].
      constructor; [apply Forall_rev; exact Hacc | auto].
    + constructor; [apply Forall_rev; exact Hacc | auto].
Qed.

Lemma split_ok fl r s : Forall P s -> Forall (Forall P) (split fl r s).
Proof.
  intros Hs. unfold split. destruct s as [|c s].
  - destruct (match_here fl r None []); repeat constructor.
  - apply split_go_ok; [exact Hs | constructor].
Qed.

Lemma trimStart_ok s : Forall P s -> Forall P (trimStart s).
Proof.
  induction s as [|c s IH]; intros H; simpl; [constructor|].
  destruct (isSpace c); [inversion H; auto | exact H].
Qed.

Lemma trim_ok s : Forall P s -> Forall P (trim s).
Proof.
  intros H. unfold trim, trimEnd.
  apply Forall_rev, trimStart_ok, Forall_rev, trimStart_ok, H.
Qed.

Lemma join_ok sep l :
  Forall P sep -> Forall (Forall P) l -> Forall P (join sep l).
Proof.
  intros Hsep. induction l as [|x l IH]; intros H; [constructor|].
  inversion H; subst. destruct l as [|y l]; [assumption|].
  change (Forall P (x ++ sep ++ join sep (y :: l))).
  apply Forall_app; split; [assumption|]. apply Forall_app; split; auto.
Qed.

Lemma filterLines_ok ps l :
  Forall (Forall P) l -> Forall (Forall P) (fst (filterLines ps l)).
Proof.
  revert ps. induction l as [|x l IH]; intros ps H; simpl; [constructor|].
  inversion H; subst.
  destruct (keepLine ps x) as [k ps1].
  specialize (IH ps1 H3). destruct (filterLines ps1 l) as [kept ps2].
  simpl in *. destruct k; [constructor|]; assumption.
Qed.

End Invariant.

(** *** Tests against a single character set *)

Lemma match_here_class fl neg items p s :
  match_here fl (Class neg items) p s =
  match s with
  | c :: tl => if class_match fl neg items c then Some (MkSt (Some c) tl []) else None
  | [] => None
  end.
Proof.
  unfold match_here. simpl. unfold consume. simpl.
  destruct s as [|c tl]; [reflexivity|].
  destruct (class_match fl neg items c); reflexivity.
Qed.

Lemma search_class fl neg items :
  forall s p,
    match search fl (Class neg items) p s with Some _ => true | None => false end
    = existsb (class_match fl neg items) s.
Proof.
  induction s as [|c s IH]; intros p; cbn [search existsb];
    rewrite match_here_class.
  - reflexivity.
  - destruct (class_match fl neg items c); [reflexivity | apply IH].
Qed.

Lemma test_class fl neg items s :
  test fl (Class neg items) s = existsb (class_match fl neg items) s.
Proof. apply search_class. Qed.

Lemma class_match_incl fl items1 items2 c :
  incl items1 items2 ->
  class_match fl false items1 c = true -> class_match fl false items2 c = true.
Proof.
  unfold class_match. simpl. intros Hi H.
  apply existsb_exists in H. destruct H as (it & Hin & H).
  apply existsb_exists. exists it. split; [apply Hi; exact Hin | exact H].
Qed.

Lemma test_class_incl fl items1 items2 s :
  incl items1 items2 ->
  test fl (Class false items2) s = false -> test fl (Class false items1) s = false.
Proof.
  rewrite !test_class. intros Hi H.
  destruct (existsb (class_match fl false items1) s) eqn:E; [|reflexivity].
  apply existsb_exists in E. destruct E as (c & Hc & E).
  apply (class_match_incl _ _ _ _ Hi) in E.
  assert (existsb (class_match fl false items2) s = true)
    by (apply existsb_exists; exists c; split; assumption).
  congruence.
Qed.

Lemma arith_in_formula : incl arith_items formula_items.
Proof. unfold formula_items. apply incl_appl, incl_refl. Qed.

(** *** The filter callback does not depend on the pattern state *)

Lemma keepLine_fst_indep ps ps' line :
  fst (keepLine ps line) = fst (keepLine ps' line).
Proof.
  unfold keepLine. destruct line as [|c line]; [reflexivity|].
  set (l := c :: line).
  destruct ((mathSymbols l * 2 <? textWords l) && (mathSymbols l <? 3));
    [reflexivity|].
  destruct (test f_i (Class false formula_items) l) eqn:Hf.
  - destruct (test f_i re_descriptive l && negb true); [reflexivity|].
    destruct (test f_i re_truefalse l); [reflexivity|].
    destruct (test f_i re_choice l); reflexivity.
  - destruct (test f_i re_descriptive l && negb false); [reflexivity|].
    destruct (test f_i re_truefalse l); [reflexivity|].
    destruct (test f_i re_choice l); [reflexivity|].
    destruct (test f_i (Class false notation_items) l); [reflexivity|].
    rewrite (test_class_incl _ _ _ _ arith_in_formula Hf).
    destruct (test_g f_i equipmentPattern l (equipmentLastIndex ps)) as [e1 i1].
    destruct (test_g f_i equipmentPattern l (equipmentLastIndex ps')) as [e2 i2].
    rewrite !andb_false_r. simpl.
    destruct (test_g f_i methodPattern l (methodLastIndex ps)) as [m1 j1].
    destruct (test_g f_i methodPattern l (methodLastIndex ps')) as [m2 j2].
    rewrite !andb_false_r.
    destruct (test f_i re_formula l); reflexivity.
Qed.

Lemma filterLines_fst_filter ps ls :
  fst (filterLines ps ls) = filter keep ls.
Proof.
  revert ps. induction ls as [|l ls IH]; intros ps; simpl; [reflexivity|].
  unfold keep at 1. rewrite (keepLine_fst_indep freshPatterns ps l).
  destruct (keepLine ps l) as [k ps1]. specialize (IH ps1).
  destruct (filterLines ps1 ls) as [kept ps2]. simpl in *.
  rewrite IH. reflexivity.
Qed.

Lemma sanitizeFrom_indep ps ps' raw : sanitizeFrom ps raw = sanitizeFrom ps' raw.
Proof.
  unfold sanitizeFrom, filteredLines. rewrite !filterLines_fst_filter. reflexivity.
Qed.

(** *** Text without any character of the math-symbol allow-list *)

Lemma match_go_class_none fl neg items :
  forall s p,
    Forall (fun c => class_match fl neg items c = false) s ->
    match_go fl (Class neg items) p s 0 = [].
Proof.
  induction s as [|c s IH]; intros p H; cbn [match_go];
    rewrite match_here_class.
  - reflexivity.
  - inversion H; subst. rewrite H2. apply IH. assumption.
Qed.

Lemma mathSymbols_mathFree line : mathFree line -> mathSymbols line = 0.
Proof.
  intros H. unfold mathSymbols, match_all.
  rewrite match_go_class_none; [reflexivity | exact H].
Qed.

Lemma split_go_length fl r :
  forall s p skip acc, 1 <= length (split_go fl r p s skip acc).
Proof.
  induction s as [|c s IH]; intros p skip acc; simpl; [lia|].
  destruct skip as [|k]; [|apply IH].
  destruct (match_here fl r p (c :: s)) as [st|]; [|apply IH].
  destruct (matched_len (c :: s) st) as [|k].
  - destruct acc as [|a acc]; [apply IH | simpl; lia].
  - simpl. lia.
Qed.

Lemma textWords_pos c line : 1 <= textWords (c :: line).
Proof. unfold textWords, split. apply split_go_length. Qed.





Lemma mathFreeb_mathFree s : mathFreeb s = true -> mathFree s.
Proof.
  unfold mathFreeb, mathFree. intros H. apply Forall_forall. intros c Hc.
  rewrite forallb_forall in H. apply negb_true_iff. apply H, Hc.
Qed.


(** *** Replacements that erase every occurrence of a character *)

Lemma replace_go_erases (bad : unit16 -> bool) fl r :
  (forall p c s, bad c = true ->
     exists st, match_here fl r p (c :: s) = Some st
                /\ matched_len (c :: s) st <> 0) ->
  forall s p skip,
    Forall (fun c => bad c = false) (replace_go fl r [] p s skip).
Proof.
  intros Hbad. induction s as [|c s IH]; intros p skip.
  - destruct skip; cbn [replace_go]; [|constructor].
    destruct (match_here fl r p []); simpl; constructor.
  - destruct skip as [|k]; cbn [replace_go]; [|apply IH].
    destruct (bad c) eqn:B.
    + destruct (Hbad p c s B) as (st & E & L). rewrite E. simpl.
      destruct (matched_len (c :: s) st); [congruence | apply IH].
    + destruct (match_here fl r p (c :: s)) as [st|]; simpl.
      * destruct (matched_len (c :: s) st); [constructor; auto | apply IH].
      * constructor; auto.
Qed.

(** *** The match with the highest priority *)

Lemma leads_eps fl st : leads fl Eps st st.
Proof. exists []. reflexivity. Qed.

Lemma leads_chr fl a p c tl cs :
  chr_eq fl a c = true ->
  leads fl (Chr a) (MkSt p (c :: tl) cs) (MkSt (Some c) tl cs).
Proof. intros H. exists []. simpl. unfold consume. simpl. rewrite H. reflexivity. Qed.

Lemma leads_seq fl r1 r2 st x y :
  leads fl r1 st x -> leads fl r2 x y -> leads fl (Seq r1 r2) st y.
Proof.
  intros [m1 H1] [m2 H2]. exists (m2 ++ flat_map (rmatch fl r2) m1).
  cbn [rmatch]. rewrite H1. cbn [flat_map]. rewrite H2. reflexivity.
Qed.

Lemma leads_match_here fl r p s y :
  leads fl r (MkSt p s []) y -> match_here fl r p s = Some y.
Proof. intros [m H]. unfold match_here. rewrite H. reflexivity. Qed.

Lemma progress_cons p q c tl cs cs' :
  progress (MkSt p (c :: tl) cs) (MkSt q tl cs') = true.
Proof. unfold progress. simpl. apply Nat.ltb_lt. lia. Qed.

Lemma last_shift (X : Type) (l : list X) :
  forall a d, last (a :: l) d = last l a.
Proof.
  induction l as [|b l IH]; intros a d; [reflexivity|].
  change (last (a :: b :: l) d) with (last (b :: l) d).
  rewrite (IH b d), (IH b a). reflexivity.
Qed.

(** A greedy star over a character set first runs to the end of the longest
    run of characters of the set. *)
Lemma leads_star_class fl neg items :
  forall A p tl cs,
    Forall (fun c => class_match fl neg items c = true) A ->
    match tl with
    | [] => True
    | c :: _ => class_match fl neg items c = false
    end ->
    leads fl (Star true (Class neg items)) (MkSt p (A ++ tl) cs)
          (MkSt (last (map Some A) p) tl cs).
Proof.
  intros A p tl cs HA Htl. unfold leads.
  cbn [rmatch rest]. generalize (Nat.le_refl (length (A ++ tl))).
  generalize (length (A ++ tl)) at 2 3. intros n Hn.
  set (f := fun st : mstate => consume st (class_match fl neg items)).
  assert (Hhit : forall q c t, class_match fl neg items c = true ->
                   f (MkSt q (c :: t) cs) = [MkSt (Some c) t cs]).
  { intros q c t H. unfold f, consume. simpl. rewrite H. reflexivity. }
  assert (Hmiss : forall q, f (MkSt q tl cs) = []).
  { intros q. unfold f, consume. simpl.
    destruct tl as [|c t]; [reflexivity|]. rewrite Htl. reflexivity. }
  clearbody f.
  revert p n Hn. induction A as [|a A IH]; intros p n Hn.
  - exists []. destruct n as [|n]; [reflexivity|].
    cbn [star_loop app map last]. rewrite Hmiss. reflexivity.
  - inversion HA; subst. destruct n as [|n]; [simpl in Hn; lia|].
    simpl in Hn. apply le_S_n in Hn.
    destruct (IH H2 (Some a) n Hn) as [more E].
    exists (more ++ [MkSt p ((a :: A) ++ tl) cs]).
    cbn [star_loop app]. rewrite (Hhit p a (A ++ tl) H1).
    cbn [filter]. rewrite progress_cons.
    cbn [flat_map]. rewrite app_nil_r, E.
    cbn [map]. rewrite last_shift. reflexivity.
Qed.

Lemma replace_go_skip fl r t :
  forall s1 s2 p,
    replace_go fl r t p (s1 ++ s2) (length s1)
    = replace_go fl r t (last (map Some s1) p) s2 0.
Proof.
  induction s1 as [|c s1 IH]; intros s2 p; [reflexivity|].
  cbn [app length replace_go]. rewrite IH.
  cbn [map]. rewrite last_shift. reflexivity.
Qed.

Lemma rmatch_chr_fail fl a p c tl cs :
  chr_eq fl a c = false -> rmatch fl (Chr a) (MkSt p (c :: tl) cs) = [].
Proof. intros H. simpl. unfold consume. simpl. rewrite H. reflexivity. Qed.

Lemma leads_opt_take fl r st y :
  leads fl r st y -> progress st y = true -> leads fl (Opt r) st y.
Proof.
  intros [more H] Hp. unfold leads. cbn [rmatch]. rewrite H. cbn [filter].
  rewrite Hp. eexists. reflexivity.
Qed.

Lemma leads_opt_skip fl r st :
  rmatch fl r st = [] -> leads fl (Opt r) st st.
Proof. intros H. exists []. cbn [rmatch]. rewrite H. reflexivity. Qed.

(** *** Line 67 leaves no dollar sign *)

Lemma dollar_matches p c s :
  (c =? 36)%N = true ->
  exists st, match_here f_ re_dollar p (c :: s) = Some st
             /\ matched_len (c :: s) st <> 0.
Proof.
  intros H. apply N.eqb_eq in H. subst c.
  assert (Hfirst : leads f_ (Chr 36%N) (MkSt p (36%N :: s) [])
                         (MkSt (Some 36%N) s []))
    by (apply leads_chr; reflexivity).
  destruct s as [|d s].
  - exists (MkSt (Some 36%N) [] []).
    split; [reflexivity | unfold matched_len; cbn [rest length]; lia].
  - destruct (chr_eq f_ 36%N d) eqn:E.
    + exists (MkSt (Some d) s []). split; [|unfold matched_len; cbn [rest length]; lia].
      apply leads_match_here. unfold re_dollar, seqs, ch. cbn [fold_right].
      eapply leads_seq; [exact Hfirst|].
      eapply leads_seq; [|apply leads_eps].
      apply leads_opt_take; [apply leads_chr; exact E | apply progress_cons].
    + exists (MkSt (Some 36%N) (d :: s) []).
      split; [|unfold matched_len; cbn [rest length]; lia].
      apply leads_match_here. unfold re_dollar, seqs, ch. cbn [fold_right].
      eapply leads_seq; [exact Hfirst|].
      eapply leads_seq; [|apply leads_eps].
      apply leads_opt_skip. apply rmatch_chr_fail. exact E.
Qed.

Lemma dollar_erased s :
  Forall (fun c => (c =? 36)%N = false) (replace_all f_ re_dollar [] s).
Proof. apply replace_go_erases. apply dollar_matches. Qed.

(** *** Patterns that do not look at the preceding code unit *)

Lemma forget_filter_progress st l :
  map forget (filter (progress st) l)
  = filter (progress (forget st)) (map forget l).
Proof.
  induction l as [|x l IH]; simpl; [reflexivity|].
  change (progress (forget st) (forget x)) with (progress st x).
  destruct (progress st x); simpl; rewrite IH; reflexivity.
Qed.

Lemma forget_flat_map (f : mstate -> list mstate) l l' :
  (forall x, map forget (f x) = map forget (f (forget x))) ->
  map forget l = map forget l' ->
  map forget (flat_map f l) = map forget (flat_map f l').
Proof.
  intros Hf. revert l'. induction l as [|x l IH]; intros [|y l'] H;
    simpl in *; try discriminate; [reflexivity|].
  injection H as Hr Hc Hl.
  assert (Hx : forget x = forget y) by (unfold forget; rewrite Hr, Hc; reflexivity).
  rewrite !map_app, (IH l' Hl), (Hf x), (Hf y), Hx. reflexivity.
Qed.

Lemma consume_forget st p :
  map forget (consume st p) = map forget (consume (forget st) p).
Proof.
  unfold consume. simpl. destruct (rest st) as [|c tl]; [reflexivity|].
  destruct (p c); reflexivity.
Qed.

Lemma star_loop_forget g f :
  (forall st, map forget (f st) = map forget (f (forget st))) ->
  forall n st,
    map forget (star_loop g f n st) = map forget (star_loop g f n (forget st)).
Proof.
  intros Hf. induction n as [|n IH]; intros st; [reflexivity|].
  cbn [star_loop].
  assert (Hmore :
    map forget (flat_map (star_loop g f n) (filter (progress st) (f st)))
    = map forget (flat_map (star_loop g f n)
                    (filter (progress (forget st)) (f (forget st))))).
  { apply forget_flat_map; [exact IH|].
    rewrite !forget_filter_progress, <- Hf. reflexivity. }
  destruct g.
  - rewrite !map_app, Hmore. reflexivity.
  - cbn [map]. rewrite Hmore. reflexivity.
Qed.

Lemma rmatch_forget fl r :
  ctxfree r = true ->
  forall st, map forget (rmatch fl r st) = map forget (rmatch fl r (forget st)).
Proof.
  induction r; intros Hc st; cbn [rmatch]; simpl in Hc;
    try discriminate; try apply consume_forget; try reflexivity.
  - apply andb_prop in Hc. destruct Hc as [H1 H2].
    apply forget_flat_map; [apply IHr2, H2 | apply IHr1, H1].
  - apply andb_prop in Hc. destruct Hc as [H1 H2].
    rewrite !map_app, (IHr1 H1 st), (IHr2 H2 st). reflexivity.
  - apply star_loop_forget. apply IHr, Hc.
  - rewrite !map_app, !forget_filter_progress, (IHr Hc st). reflexivity.
  - transitivity (map (fun y => forget (capture i st y))
                      (map forget (rmatch fl r st))).
    + rewrite !map_map. reflexivity.
    + rewrite (IHr Hc st), !map_map. reflexivity.
  - specialize (IHr Hc st).
    destruct (rmatch fl r st) as [|x l];
      destruct (rmatch fl r (forget st)) as [|y l']; try discriminate;
      [reflexivity|].
    injection IHr as _ Hcaps _.
    simpl. unfold forget. simpl. rewrite Hcaps. reflexivity.
  - unfold guard, at_eol. simpl. destruct (rest st) as [|c tl]; [reflexivity|].
    destruct (multiline fl && isLineTerminator c); reflexivity.
Qed.

Lemma match_here_forget fl r p p' s :
  ctxfree r = true ->
  option_map forget (match_here fl r p s)
  = option_map forget (match_here fl r p' s).
Proof.
  intros Hc. unfold match_here.
  assert (H : map forget (rmatch fl r (MkSt p s []))
              = map forget (rmatch fl r (MkSt p' s []))).
  { rewrite (rmatch_forget fl r Hc (MkSt p s [])),
            (rmatch_forget fl r Hc (MkSt p' s [])). reflexivity. }
  destruct (rmatch fl r (MkSt p s [])); destruct (rmatch fl r (MkSt p' s []));
    try discriminate; [reflexivity|].
  injection H as Hr Hcp _. simpl. unfold forget. rewrite Hr, Hcp. reflexivity.
Qed.

(** A replacement with such a pattern does not depend on what precedes the
    subject. *)
Lemma replace_go_forget fl r t :
  ctxfree r = true ->
  forall s p p' skip,
    replace_go fl r t p s skip = replace_go fl r t p' s skip.
Proof.
  intros Hc.
  assert (Hm : forall p p' s,
    match match_here fl r p s, match_here fl r p' s with
    | Some x, Some y => rest x = rest y /\ caps x = caps y
    | None, None => True
    | _, _ => False
    end).
  { intros p p' s. assert (H := match_here_forget fl r p p' s Hc).
    destruct (match_here fl r p s); destruct (match_here fl r p' s);
      try discriminate; [|exact I].
    simpl in H. injection H as H1 H2. split; assumption. }
  induction s as [|c s IH]; intros p p' skip.
  - destruct skip; cbn [replace_go]; [|reflexivity].
    specialize (Hm p p' []).
    destruct (match_here fl r p []) as [x|];
      destruct (match_here fl r p' []) as [y|]; try contradiction;
      [|reflexivity].
    destruct Hm as [_ Hcaps]. unfold expand. rewrite Hcaps. reflexivity.
  - destruct skip as [|k]; cbn [replace_go]; [|apply IH].
    specialize (Hm p p' (c :: s)).
    destruct (match_here fl r p (c :: s)) as [x|];
      destruct (match_here fl r p' (c :: s)) as [y|]; try contradiction;
      [|reflexivity].
    destruct Hm as [Hrest Hcaps]. unfold expand, matched_len.
    rewrite Hcaps, Hrest. reflexivity.
Qed.

(** Code units at which no match can start are copied. *)
Lemma replace_go_copy fl r t :
  forall pre s p,
    (forall q c tl, In c pre -> match_here fl r q (c :: tl) = None) ->
    replace_go fl r t p (pre ++ s) 0
    = pre ++ replace_go fl r t (last (map Some pre) p) s 0.
Proof.
  induction pre as [|c pre IH]; intros s p H; [reflexivity|].
  cbn [app replace_go]. rewrite (H p c (pre ++ s)) by (left; reflexivity).
  rewrite IH by (intros q d tl Hd; apply H; right; exact Hd).
  cbn [map]. rewrite (last_shift _ (map Some pre) (Some c) p). reflexivity.
Qed.

Lemma leads_litu :
  forall w p tl cs,
    leads f_ (litu w) (MkSt p (w ++ tl) cs) (MkSt (last (map Some w) p) tl cs).
Proof.
  unfold litu, seqs.
  induction w as [|c w IH]; intros p tl cs; cbn [map fold_right app].
  - apply leads_eps.
  - eapply leads_seq.
    + apply leads_chr. apply N.eqb_refl.
    + rewrite last_shift. apply IH.
Qed.

(** Replacing a match that is followed by [post]. *)
Lemma replace_go_hit fl r t p m post st :
  m <> [] ->
  match_here fl r p (m ++ post) = Some st ->
  rest st = post ->
  replace_go fl r t p (m ++ post) 0
  = expand t st ++ replace_go fl r t (last (map Some m) p) post 0.
Proof.
  intros Hm H Hrest. destruct m as [|c m]; [contradiction|].
  cbn [app replace_go]. cbn [app] in H. rewrite H.
  unfold matched_len. rewrite Hrest. cbn [length]. rewrite length_app.
  replace (S (length m + length post) - length post) with (S (length m)) by lia.
  rewrite replace_go_skip. cbn [map].
  rewrite (last_shift _ (map Some m) (Some c) p). reflexivity.
Qed.

(** *** Line 69 on a fraction macro *)

Lemma lacks_Forall x s : lacks x s = true -> Forall (fun c => (c =? x)%N = false) s.
Proof.
  unfold lacks. intros H. apply Forall_forall. intros c Hc.
  rewrite forallb_forall in H. apply negb_true_iff. apply H, Hc.
Qed.

Lemma operand_run A :
  lacks 125%N A = true ->
  Forall (fun c => class_match f_ true [cc "}"] c = true) A.
Proof.
  intros H. apply lacks_Forall in H.
  eapply Forall_impl; [|exact H]. intros c Hc.
  change (class_match f_ true [cc "}"] c) with (negb ((125 =? c)%N || false)).
  rewrite N.eqb_sym, Hc. reflexivity.
Qed.

Lemma frac_leads p A B post :
  lacks 125%N A = true -> lacks 125%N B = true ->
  leads f_ re_frac (MkSt p (frac_macro A B ++ post) []) (MkSt (Some 125%N) post []).
Proof.
  intros HA HB. unfold frac_macro. rewrite <- !app_assoc.
  unfold re_frac, seqs. cbn [fold_right].
  eapply leads_seq; [apply (leads_litu (js "\frac{"))|].
  eapply leads_seq;
    [apply leads_star_class; [apply operand_run, HA | reflexivity]|].
  eapply leads_seq; [apply (leads_litu (js "}{"))|].
  eapply leads_seq;
    [apply leads_star_class; [apply operand_run, HB | reflexivity]|].
  eapply leads_seq; [apply leads_chr; reflexivity | apply leads_eps].
Qed.

Lemma rmatch_seq_fail fl r1 r2 st :
  rmatch fl r1 st = [] -> rmatch fl (Seq r1 r2) st = [].
Proof. intros H. cbn [rmatch]. rewrite H. reflexivity. Qed.

Lemma frac_needs_backslash q c tl :
  (c =? 92)%N = false -> match_here f_ re_frac q (c :: tl) = None.
Proof.
  intros H. unfold match_here, re_frac, seqs. cbn [fold_right].
  change (lit "\frac{") with (Seq (Chr 92%N) (litu (js "frac{"))).
  rewrite rmatch_seq_fail; [reflexivity|].
  apply rmatch_seq_fail, rmatch_chr_fail.
  change (chr_eq f_ 92%N c) with (92 =? c)%N. rewrite N.eqb_sym. exact H.
Qed.

(** ** Examples *)

(** A sentence without digits or operators is emptied, although it holds the
    letters a, b and c of the allow-list; white space alone as well. *)
Example prose_only_is_emptied :
  sanitizeOutput (js "The total number of apples is calculated by adding them.") = []
  /\ sanitizeOutput (js "   ") = [].
Proof. split; vm_compute; reflexivity. Qed.

(** * The claims *)

(** C1. The pass of line 66 matches an opening bracket only when the closing
    one follows it at once, so the delimiters of [\[E = mc^2\]] stay in the
    output although the formula is kept; dollar delimiters are removed. *)
Theorem C1_bracket_delimiters_survive :
  sanitizeOutput (js "\[E = mc^2\]") = js "\[E = mc^2\]"
  /\ replace_all f_ re_brackets [] (js "\[E = mc^2\]") = js "\[E = mc^2\]"
  /\ replace_all f_ re_brackets [] (js "\[\]") = []
  /\ sanitizeOutput (js "$$E = mc^2$$") = js "E = mc^2".
Proof. repeat split; vm_compute; reflexivity. Qed.

(** C2. The line [spectrophotometer] is kept: it holds the letter c of the
    notation test of line 123, which comes before the equipment test.  The
    line with arithmetic is kept as well. *)
Theorem C2_equipment_line_kept :
  sanitizeOutput (js "spectrophotometer") = js "spectrophotometer"
  /\ keep (js "spectrophotometer") = true
  /\ test f_i (Class false notation_items) (js "spectrophotometer") = true
  /\ sanitizeOutput (js "spectrophotometer: A = 0.45")
     = js "spectrophotometer: A = 0.45".
Proof. repeat split; vm_compute; reflexivity. Qed.

(** C3. The choice [C] passes unchanged, but [True] holds no character of
    the allow-list: line 81 blanks it and the filter would reject it at
    line 110, before the tests of lines 117 and 119; the same happens to the
    choices [D] and [E]. *)
Theorem C3_true_is_dropped :
  sanitizeOutput (js "C") = js "C"
  /\ sanitizeOutput (js "True") = []
  /\ cleaned (js "True") = []
  /\ keep (js "True") = false
  /\ test f_i re_truefalse (js "True") = true
  /\ sanitizeOutput (js "False") = js "False"
  /\ map keep [js "A"; js "B"; js "C"; js "D"; js "E"]
     = [true; true; true; false; false].
Proof. repeat split; vm_compute; reflexivity. Qed.

(** C4, as stated, fails: of [x = \frac{7}{9}] neither operand is left. *)
Lemma C4_operands_do_not_survive :
  strip_frac (js "x = \frac{7}{9}") = js "x = "
  /\ sanitizeOutput (js "x = \frac{7}{9}") = js "x ="
  /\ existsb (N.eqb 55) (sanitizeOutput (js "x = \frac{7}{9}")) = false
  /\ existsb (N.eqb 57) (sanitizeOutput (js "x = \frac{7}{9}")) = false.
Proof. repeat split; vm_compute; reflexivity. Qed.

(** C4, amended.  The pass of line 69 deletes the macro [\frac{A}{B}] as a
    whole, operands included: when no closing brace occurs in [A] or [B] and
    no backslash before the macro, what precedes the macro is copied and what
    follows it is processed as if the macro were not there. *)
Theorem C4_frac_macro_deleted (pre A B post : jsstring) :
  lacks 92%N pre = true -> lacks 125%N A = true -> lacks 125%N B = true ->
  strip_frac (pre ++ frac_macro A B ++ post) = pre ++ strip_frac post.
Proof.
  intros Hpre HA HB. unfold strip_frac, replace_all.
  rewrite replace_go_copy.
  - f_equal.
    rewrite (replace_go_hit f_ re_frac [] _ (frac_macro A B) post
               (MkSt (Some 125%N) post [])).
    + apply replace_go_forget. reflexivity.   (* [re_frac] is context-free *)
    + discriminate.
    + apply leads_match_here, frac_leads; assumption.
    + reflexivity.
  - intros q c tl Hc. apply frac_needs_backslash.
    apply lacks_Forall in Hpre. rewrite Forall_forall in Hpre. apply Hpre, Hc.
Qed.

Lemma C4_frac_macro_deleted_witness :
  lacks 92%N (js "x = ") = true /\ lacks 125%N (js "7") = true
  /\ lacks 125%N (js "9") = true
  /\ strip_frac (js "x = " ++ frac_macro (js "7") (js "9") ++ js " + 1")
     = js "x = " ++ strip_frac (js " + 1").
Proof.
  split; [reflexivity|]. split; [reflexivity|]. split; [reflexivity|].
  apply (C4_frac_macro_deleted (js "x = ") (js "7") (js "9") (js " + 1"));
    reflexivity.
Defined.






(** C7.  Two invocations on the same string give the same result, in
    whatever state the pattern objects are: the only mutable state of the
    function, their [lastIndex], has no influence on the result, and
    [sanitizeOutput] is the run from the fresh state. *)
Theorem C7_deterministic (ps1 ps2 : patState) (raw1 raw2 : jsstring) :
  raw1 = raw2 ->
  sanitizeOutputWith ps1 raw1 = sanitizeOutputWith ps2 raw2
  /\ sanitizeOutputWith ps1 raw1 = sanitizeOutput raw2.
Proof.
  intros <-. unfold sanitizeOutput, sanitizeOutputWith.
  destruct raw1 as [|c s]; [split; reflexivity|].
  split; apply sanitizeFrom_indep.
Qed.

Lemma C7_deterministic_witness :
  js "F net = 10" = js "F net = 10"
  /\ sanitizeOutputWith (PatState 0 0) (js "F net = 10")
     = sanitizeOutputWith (PatState 3 5) (js "F net = 10")
  /\ sanitizeOutputWith (PatState 0 0) (js "F net = 10")
     = sanitizeOutput (js "F net = 10").
Proof.
  split; [reflexivity|].
  apply (C7_deterministic (PatState 0 0) (PatState 3 5)
           (js "F net = 10") (js "F net = 10")).
  reflexivity.
Defined.

(** C8.  [v 0 = 5] and [F net = 10] on two lines become [v0 = 5] and
    [Fnet = 10]: line 141 joins the letter and the digit, line 144 the letter
    and the subscript word. *)
Theorem C8_variable_joining :
  sanitizeOutput (nl (js "v 0 = 5") (js "F net = 10"))
  = nl (js "v0 = 5") (js "Fnet = 10")
  /\ normalizeVariables (js "v 0 = 5") = js "v0 = 5"
  /\ normalizeVariables (js "F net = 10") = js "Fnet = 10".
Proof. repeat split; vm_compute; reflexivity. Qed.

(** C9.  The decision of the filter callback on a line is the value of the
    predicate [keep] on that line, whatever state earlier lines left in the
    pattern objects; filtering is [filter keep], so a line is kept or
    dropped the same way whatever precedes or follows it. *)
Theorem C9_keep_is_per_line :
  (forall ps line, fst (keepLine ps line) = keep line)
  /\ (forall ps text, filteredLines ps text = filter keep (map trim (lines text)))
  /\ (forall ps before line after,
        fst (filterLines ps (before ++ line :: after))
        = filter keep before ++ (if keep line then [line] else [])
          ++ filter keep after).
Proof.
  split; [|split].
  - intros ps line. apply keepLine_fst_indep.
  - intros ps text. apply filterLines_fst_filter.
  - intros ps before line after. rewrite filterLines_fst_filter.
    rewrite filter_app. simpl. destruct (keep line); reflexivity.
Qed.

(** C10.  No dollar sign (code unit 36) is left in the result: line 67
    removes every one of them and no later step writes one. *)
Theorem C10_no_dollar (raw : jsstring) :
  existsb (N.eqb 36) (sanitizeOutput raw) = false.
Proof.
  set (P := fun c : unit16 => (c =? 36)%N = false).
  assert (HP : Forall P (sanitizeOutput raw)).
  { unfold sanitizeOutput. destruct raw as [|c s]; [constructor|].
    set (raw := c :: s). unfold sanitizeFrom.
    apply trim_ok. apply join_ok; [repeat constructor|].
    apply Forall_map.
    assert (Hcl : Forall P (cleaned raw)).
    { change (cleaned raw) with
        (run_passes (skipn 2 stageA)
           (replace_all f_ re_dollar []
              (replace_all f_ re_brackets [] raw))).
      apply run_passes_ok; [|apply dollar_erased].
      unfold stageA, pass_ok. simpl.
      repeat (constructor; [simpl; repeat constructor|]). constructor. }
    assert (Hfl : Forall (Forall P) (filteredLines freshPatterns (cleaned raw))).
    { unfold filteredLines. apply filterLines_ok. apply Forall_map.
      eapply Forall_impl; [intros l Hl; apply trim_ok; exact Hl|].
      apply split_ok. exact Hcl. }
    eapply Forall_impl; [|exact Hfl].
    intros l Hl. unfold normalizeVariables. apply trim_ok.
    apply run_passes_ok; [|exact Hl].
    unfold stageC, pass_ok, JOIN, SPACE.
    repeat (constructor; [simpl; repeat constructor|]). constructor. }
  destruct (existsb (N.eqb 36) (sanitizeOutput raw)) eqn:E; [|reflexivity].
  apply existsb_exists in E. destruct E as (c & Hc & E).
  rewrite Forall_forall in HP. specialize (HP c Hc). unfold P in HP.
  rewrite N.eqb_sym in E. congruence.
Qed.

(** * Further properties *)

(** ** [trim] *)

Lemma trimStart_idem s : trimStart (trimStart s) = trimStart s.
Proof.
  induction s as [|c s IH]; simpl; [reflexivity|].
  destruct (isSpace c) eqn:E; [exact IH|]. simpl. rewrite E. reflexivity.
Qed.

Lemma trimStart_app_nonspace l c :
  isSpace c = false -> trimStart (l ++ [c]) = trimStart l ++ [c].
Proof.
  intros H. induction l as [|a l IH]; simpl; [rewrite H; reflexivity|].
  destruct (isSpace a); [exact IH | reflexivity].
Qed.

Lemma trimEnd_cons_nonspace c t :
  isSpace c = false -> trimEnd (c :: t) = c :: trimEnd t.
Proof.
  intros H. unfold trimEnd. simpl.
  rewrite trimStart_app_nonspace by exact H.
  rewrite rev_app_distr. reflexivity.
Qed.

Lemma trimEnd_idem s : trimEnd (trimEnd s) = trimEnd s.
Proof. unfold trimEnd. rewrite rev_involutive, trimStart_idem. reflexivity. Qed.

Lemma trimStart_cases s :
  trimStart s = [] \/ exists c t, trimStart s = c :: t /\ isSpace c = false.
Proof.
  induction s as [|c s IH]; simpl; [left; reflexivity|].
  destruct (isSpace c) eqn:E; [exact IH|].
  right. exists c, s. split; [reflexivity | exact E].
Qed.

Lemma trim_idem s : trim (trim s) = trim s.
Proof.
  unfold trim. destruct (trimStart_cases s) as [E|(c & t & E & H)]; rewrite E.
  - reflexivity.
  - rewrite (trimEnd_cons_nonspace c t H). simpl. rewrite H.
    rewrite (trimEnd_cons_nonspace c (trimEnd t) H), trimEnd_idem. reflexivity.
Qed.

(** A trimmed string neither starts nor ends with white space. *)
Lemma trim_starts s c t : trim s = c :: t -> isSpace c = false.
Proof.
  unfold trim. destruct (trimStart_cases s) as [E|(a & u & E & H)]; rewrite E.
  - discriminate.
  - rewrite (trimEnd_cons_nonspace a u H). intros [= <- _]. exact H.
Qed.

Lemma trim_ends s c t : trim s = t ++ [c] -> isSpace c = false.
Proof.
  unfold trim, trimEnd. intros H.
  apply (f_equal (@rev unit16)) in H.
  rewrite rev_involutive, rev_app_distr in H. simpl in H.
  destruct (trimStart_cases (rev (trimStart s))) as [E|(a & u & E & Ha)];
    rewrite E in H; [discriminate|].
  injection H as -> _. exact Ha.
Qed.

(** ** What the result is made of *)

Lemma stageA_ok P : P 32%N -> Forall (pass_ok P) stageA.
Proof.
  intros H. unfold stageA, pass_ok.
  repeat (constructor; [simpl; repeat constructor; exact H|]). constructor.
Qed.

Lemma stageC_ok P : P 32%N -> Forall (pass_ok P) stageC.
Proof.
  intros H. unfold stageC, pass_ok, JOIN, SPACE.
  repeat (constructor; [simpl; repeat constructor; exact H|]). constructor.
Qed.

Lemma normalizeVariables_ok P line :
  P 32%N -> Forall P line -> Forall P (normalizeVariables line).
Proof.
  intros H32 H. unfold normalizeVariables. apply trim_ok.
  apply run_passes_ok; [apply stageC_ok, H32 | exact H].
Qed.

Lemma filteredLines_ok P ps text :
  Forall P text -> Forall (Forall P) (filteredLines ps text).
Proof.
  intros H. unfold filteredLines. apply filterLines_ok, Forall_map.
  eapply Forall_impl; [intros l Hl; apply trim_ok; exact Hl|].
  apply split_ok, H.
Qed.

Lemma finish_ok P ls :
  P 32%N -> P 10%N -> Forall (Forall P) ls ->
  Forall P (trim (join [LF] (map normalizeVariables ls))).
Proof.
  intros H32 H10 H. apply trim_ok, join_ok; [repeat constructor; exact H10|].
  apply Forall_map. eapply Forall_impl; [|exact H].
  intros l Hl. apply normalizeVariables_ok; assumption.
Qed.

Lemma sanitizeFrom_ok P ps raw :
  P 32%N -> P 10%N -> Forall P raw -> Forall P (sanitizeFrom ps raw).
Proof.
  intros H32 H10 H. unfold sanitizeFrom. apply finish_ok; try assumption.
  apply filteredLines_ok. unfold cleaned.
  apply run_passes_ok; [apply stageA_ok, H32 | exact H].
Qed.

(** X1.  The sanitizer invents nothing: every code unit of the result is a
    code unit of the input, a space (written by the passes of lines 91 and
    161) or a line feed (written by the join of line 169). *)
Theorem X1_nothing_invented (raw : jsstring) :
  Forall (fun c => In c raw \/ c = 32%N \/ c = 10%N) (sanitizeOutput raw).
Proof.
  unfold sanitizeOutput. destruct raw as [|a raw]; [constructor|].
  apply sanitizeFrom_ok; [right; left; reflexivity | right; right; reflexivity|].
  apply Forall_forall. intros c Hc. left. exact Hc.
Qed.

(** X2.  The result is trimmed: trimming it again changes nothing, and it
    neither starts nor ends with a white-space code unit. *)
Theorem X2_result_is_trimmed (raw : jsstring) :
  trim (sanitizeOutput raw) = sanitizeOutput raw
  /\ edge_clean (sanitizeOutput raw) = true
  /\ edge_clean (rev (sanitizeOutput raw)) = true.
Proof.
  assert (H : exists s, sanitizeOutput raw = trim s).
  { unfold sanitizeOutput. destruct raw as [|a raw]; [exists []; reflexivity|].
    eexists. reflexivity. }
  destruct H as [s ->]. split; [apply trim_idem|]. split.
  - unfold edge_clean. destruct (trim s) as [|c t] eqn:E; [reflexivity|].
    rewrite (trim_starts s c t E). reflexivity.
  - unfold edge_clean. destruct (rev (trim s)) as [|c t] eqn:E; [reflexivity|].
    apply (f_equal (@rev unit16)) in E. rewrite rev_involutive in E. simpl in E.
    rewrite (trim_ends s c (rev t) E). reflexivity.
Qed.

(** ** The line filter *)

Lemma units_in lo hi c : between lo hi c = true -> In c (units lo hi).
Proof.
  unfold between, units. intros H. apply andb_prop in H. destruct H as [H1 H2].
  apply N.leb_le in H1. apply N.leb_le in H2.
  apply in_map_iff. exists (N.to_nat c). split; [apply N2Nat.id|].
  apply in_seq. lia.
Qed.

Lemma item_match_ci it c :
  item_match f_ it c = true -> item_match f_i it c = true.
Proof.
  destruct it as [a|lo hi| | |]; simpl; try (intros H; exact H).
  - unfold chr_eq. simpl. intros H. apply N.eqb_eq in H. subst a.
    apply N.eqb_refl.
  - intros H. apply existsb_exists. exists c. split; [apply units_in, H|].
    apply N.eqb_refl.
Qed.

Lemma class_match_ci items c :
  class_match f_ false items c = true -> class_match f_i false items c = true.
Proof.
  unfold class_match. simpl. intros H.
  apply existsb_exists in H. destruct H as (it & Hin & H).
  apply existsb_exists. exists it. split; [exact Hin | apply item_match_ci, H].
Qed.

Lemma mathFree_or_math line :
  mathFree line \/ exists c, In c line /\ isMath c = true.
Proof.
  induction line as [|c line IH]; [left; constructor|].
  destruct (isMath c) eqn:E.
  - right. exists c. split; [left; reflexivity | exact E].
  - destruct IH as [IH|(d & Hd & E')].
    + left. constructor; assumption.
    + right. exists d. split; [right; exact Hd | exact E'].
Qed.

Lemma not_sparse_math line :
  line <> [] -> sparse line = false -> exists c, In c line /\ isMath c = true.
Proof.
  intros Hne Hs. destruct (mathFree_or_math line) as [Hfree|H]; [|exact H].
  exfalso. unfold sparse in Hs. rewrite (mathSymbols_mathFree _ Hfree) in Hs.
  destruct line as [|c line]; [apply Hne; reflexivity|].
  assert (Hw := textWords_pos c line).
  replace (0 * 2 <? textWords (c :: line)) with true in Hs
    by (symmetry; apply Nat.ltb_lt; lia).
  discriminate.
Qed.

Lemma math_formula_or_notation line c :
  In c line -> isMath c = true ->
  test f_i (Class false formula_items) line
  || test f_i (Class false notation_items) line = true.
Proof.
  intros Hin Hc. rewrite !test_class.
  change (isMath c) with
    (existsb (fun it => item_match f_ it c) (formula_items ++ notation_items))
    in Hc.
  rewrite existsb_app in Hc. apply orb_prop in Hc.
  apply orb_true_iff. destruct Hc as [Hc|Hc]; [left|right];
    apply existsb_exists; exists c; (split; [exact Hin|]);
    apply class_match_ci; exact Hc.
Qed.

Lemma keep_three_tests (line : jsstring) :
  keep line =
  match line with
  | [] => false
  | _ => negb (sparse line) && negb (descriptive line)
  end.
Proof.
  unfold keep, keepLine. destruct line as [|c line]; [reflexivity|].
  set (l := c :: line).
  change ((mathSymbols l * 2 <? textWords l) && (mathSymbols l <? 3))
    with (sparse l).
  change (test f_i re_descriptive l
          && negb (test f_i (Class false formula_items) l))
    with (descriptive l).
  destruct (sparse l) eqn:Hs; [reflexivity|].
  destruct (descriptive l) eqn:Hd; [reflexivity|].
  assert (Hne : l <> []) by discriminate.
  destruct (not_sparse_math l Hne Hs) as (d & Hin & Hm).
  assert (H := math_formula_or_notation l d Hin Hm).
  destruct (test f_i re_truefalse l); [reflexivity|].
  destruct (test f_i re_choice l); [reflexivity|].
  destruct (test f_i (Class false formula_items) l); [reflexivity|].
  destruct (test f_i (Class false notation_items) l); [reflexivity|].
  discriminate.
Qed.

Lemma keep_math line : keep line = true -> existsb isMath line = true.
Proof.
  rewrite keep_three_tests. destruct line as [|c line]; [discriminate|].
  intros H. apply andb_prop in H. destruct H as [H _].
  apply negb_true_iff in H.
  destruct (not_sparse_math (c :: line)) as (d & Hin & Hm);
    [discriminate | exact H|].
  apply existsb_exists. exists d. split; assumption.
Qed.

Lemma filteredLines_kept ps text :
  Forall (fun l => existsb isMath l = true /\ trim l = l) (filteredLines ps text).
Proof.
  unfold filteredLines. rewrite filterLines_fst_filter.
  apply Forall_forall. intros l Hl. apply filter_In in Hl.
  destruct Hl as [Hin Hk]. split; [apply keep_math, Hk|].
  apply in_map_iff in Hin. destruct Hin as (x & <- & _). apply trim_idem.
Qed.

(** ** Passes that delete single code units *)

Lemma replace_class_filter fl neg items :
  forall s p,
    replace_go fl (Class neg items) [] p s 0
    = filter (fun c => negb (class_match fl neg items c)) s.
Proof.
  induction s as [|c s IH]; intros p; cbn [replace_go filter];
    rewrite match_here_class; [reflexivity|].
  destruct (class_match fl neg items c); cbn [negb].
  - unfold matched_len. cbn [rest length expand flat_map app].
    replace (S (length s) - length s) with 1 by lia. apply IH.
  - rewrite IH. reflexivity.
Qed.

Lemma strip_ticks_filter s :
  strip_ticks s = filter (fun c => negb ((c =? 96)%N || (c =? 126)%N)) s.
Proof.
  unfold strip_ticks, replace_all, re_ticks. rewrite replace_class_filter.
  apply filter_ext. intros c.
  change (class_match f_ false (chars "`~") c)
    with ((96 =? c)%N || ((126 =? c)%N || false)).
  rewrite (N.eqb_sym 96 c), (N.eqb_sym 126 c), orb_false_r. reflexivity.
Qed.

Lemma replace_go_miss fl r t p c s :
  match_here fl r p (c :: s) = None ->
  replace_go fl r t p (c :: s) 0 = c :: replace_go fl r t (Some c) s 0.
Proof. intros H. cbn [replace_go]. rewrite H. reflexivity. Qed.

Lemma dollar_filter_len :
  forall n s p, length s <= n ->
    replace_go f_ re_dollar [] p s 0 = filter (fun c => negb (c =? 36)%N) s.
Proof.
  induction n as [|n IH]; intros s p Hn.
  - destruct s; [reflexivity | simpl in Hn; lia].
  - destruct s as [|c s]; [reflexivity|].
    simpl in Hn. apply le_S_n in Hn.
    cbn [filter]. destruct (c =? 36)%N eqn:E.
    + apply N.eqb_eq in E. subst c. cbn [negb].
      assert (Hfirst : leads f_ (Chr 36%N) (MkSt p (36%N :: s) [])
                             (MkSt (Some 36%N) s []))
        by (apply leads_chr; reflexivity).
      destruct s as [|d s]; [reflexivity|].
      destruct (chr_eq f_ 36%N d) eqn:Ed.
      * etransitivity.
        { apply (replace_go_hit f_ re_dollar [] p [36%N; d] s (MkSt (Some d) s []));
            [discriminate | | reflexivity].
          apply leads_match_here. unfold re_dollar, seqs, ch. cbn [fold_right].
          eapply leads_seq; [exact Hfirst|].
          eapply leads_seq; [|apply leads_eps].
          apply leads_opt_take; [apply leads_chr; exact Ed | apply progress_cons]. }
        cbn [expand flat_map app]. simpl in Hn. rewrite IH by lia.
        change (chr_eq f_ 36%N d) with (36 =? d)%N in Ed.
        cbn [filter]. rewrite N.eqb_sym, Ed. reflexivity.
      * etransitivity.
        { apply (replace_go_hit f_ re_dollar [] p [36%N] (d :: s)
                   (MkSt (Some 36%N) (d :: s) []));
            [discriminate | | reflexivity].
          apply leads_match_here. unfold re_dollar, seqs, ch. cbn [fold_right].
          eapply leads_seq; [exact Hfirst|].
          eapply leads_seq; [|apply leads_eps].
          apply leads_opt_skip. apply rmatch_chr_fail. exact Ed. }
        cbn [expand flat_map app]. apply IH. exact Hn.
    + cbn [negb]. rewrite replace_go_miss.
      * rewrite (IH s (Some c) Hn). reflexivity.
      * unfold match_here, re_dollar, seqs, ch. cbn [fold_right].
        rewrite rmatch_seq_fail; [reflexivity|]. apply rmatch_chr_fail.
        change (chr_eq f_ (N_of_ascii "$") c) with (36 =? c)%N.
        rewrite N.eqb_sym. exact E.
Qed.

Lemma strip_dollar_filter s :
  strip_dollar s = filter (fun c => negb (c =? 36)%N) s.
Proof. apply (dollar_filter_len (length s)). apply Nat.le_refl. Qed.

(** ** Passes that collapse runs *)

Lemma takeRun_dropRun p s : takeRun p s ++ dropRun p s = s.
Proof.
  induction s as [|c s IH]; simpl; [reflexivity|].
  destruct (p c); simpl; [rewrite IH|]; reflexivity.
Qed.

Lemma takeRun_all p s : Forall (fun c => p c = true) (takeRun p s).
Proof.
  induction s as [|c s IH]; simpl; [constructor|].
  destruct (p c) eqn:E; constructor; assumption.
Qed.

Lemma dropRun_head p s :
  match dropRun p s with [] => True | c :: _ => p c = false end.
Proof.
  induction s as [|c s IH]; simpl; [exact I|].
  destruct (p c) eqn:E; [exact IH | exact E].
Qed.

Lemma dropRun_length p s : length (dropRun p s) <= length s.
Proof.
  induction s as [|c s IH]; simpl; [lia|].
  destruct (p c); simpl; lia.
Qed.

Lemma dropRun_trimStart s : dropRun isSpace s = trimStart s.
Proof.
  induction s as [|c s IH]; simpl; [reflexivity|].
  destruct (isSpace c); [exact IH | reflexivity].
Qed.

Lemma leads_class fl neg items p c tl cs :
  class_match fl neg items c = true ->
  leads fl (Class neg items) (MkSt p (c :: tl) cs) (MkSt (Some c) tl cs).
Proof.
  intros H. exists []. cbn [rmatch]. unfold consume. cbn [rest caps].
  rewrite H. reflexivity.
Qed.

Lemma rmatch_class_fail fl neg items p c tl cs :
  class_match fl neg items c = false ->
  rmatch fl (Class neg items) (MkSt p (c :: tl) cs) = [].
Proof.
  intros H. cbn [rmatch]. unfold consume. cbn [rest caps].
  rewrite H. reflexivity.
Qed.

(** The first match of [[...]+] is the whole run. *)
Lemma leads_plus_class fl neg items p c s cs :
  class_match fl neg items c = true ->
  leads fl (Plus (Class neg items)) (MkSt p (c :: s) cs)
        (MkSt (last (map Some (takeRun (class_match fl neg items) s)) (Some c))
              (dropRun (class_match fl neg items) s) cs).
Proof.
  intros H. unfold Plus. eapply leads_seq; [apply leads_class, H|].
  rewrite <- (takeRun_dropRun (class_match fl neg items) s) at 1.
  apply leads_star_class; [apply takeRun_all | apply dropRun_head].
Qed.

Lemma squeeze_true_drop p s :
  squeeze_go p true s = squeeze_go p false (dropRun p s).
Proof.
  induction s as [|c s IH]; simpl; [reflexivity|].
  destruct (p c) eqn:E; [exact IH|]. simpl. rewrite E. reflexivity.
Qed.

Lemma replace_plus_class_len fl neg items :
  forall n s p, length s <= n ->
    replace_go fl (Plus (Class neg items)) SPACE p s 0
    = squeeze (class_match fl neg items) s.
Proof.
  unfold squeeze. induction n as [|n IH]; intros s p Hn.
  - destruct s; [reflexivity | simpl in Hn; lia].
  - destruct s as [|c s]; [reflexivity|].
    simpl in Hn. apply le_S_n in Hn. cbn [squeeze_go].
    destruct (class_match fl neg items c) eqn:E.
    + set (q := class_match fl neg items) in *.
      rewrite <- (takeRun_dropRun q s) at 1.
      etransitivity.
      { apply (replace_go_hit fl (Plus (Class neg items)) SPACE p
                 (c :: takeRun q s) (dropRun q s)
                 (MkSt (last (map Some (takeRun q s)) (Some c))
                       (dropRun q s) []));
          [discriminate | | reflexivity].
        cbn [app]. rewrite takeRun_dropRun.
        apply leads_match_here, leads_plus_class, E. }
      cbn [expand SPACE flat_map app].
      rewrite IH by (pose proof (dropRun_length q s); lia).
      rewrite squeeze_true_drop. reflexivity.
    + rewrite replace_go_miss; [rewrite (IH s _ Hn); reflexivity|].
      unfold match_here, Plus. rewrite rmatch_seq_fail; [reflexivity|].
      apply rmatch_class_fail, E.
Qed.

Lemma replace_plus_class fl neg items s :
  replace_all fl (Plus (Class neg items)) SPACE s
  = squeeze (class_match fl neg items) s.
Proof. apply (replace_plus_class_len fl neg items (length s)). apply Nat.le_refl. Qed.

(** What a squeezed string contains. *)
Lemma squeeze_go_chars p b s :
  Forall (fun c => c = 32%N \/ p c = false) (squeeze_go p b s).
Proof.
  revert b. induction s as [|c s IH]; intros b; simpl; [constructor|].
  destruct (p c) eqn:E.
  - destruct b; [apply IH | constructor; [left; reflexivity | apply IH]].
  - constructor; [right; exact E | apply IH].
Qed.

Lemma no_double_cons c s :
  no_double_space (c :: s) = negb ((c =? 32)%N && hd_space s) && no_double_space s.
Proof. destruct s as [|d s]; simpl; [rewrite andb_false_r|]; reflexivity. Qed.

Lemma squeeze_go_no_double p :
  p 32%N = true ->
  forall s b,
    no_double_space (squeeze_go p b s) = true
    /\ (b = true -> hd_space (squeeze_go p b s) = false).
Proof.
  intros H32. induction s as [|c s IH]; intros b; [split; reflexivity|].
  cbn [squeeze_go]. destruct (p c) eqn:E.
  - destruct b; [apply IH|]. split; [|discriminate].
    destruct (IH true) as [Hn Hh]. rewrite no_double_cons, Hn, (Hh eq_refl).
    rewrite andb_false_r. reflexivity.
  - assert (Hc : (c =? 32)%N = false).
    { destruct (c =? 32)%N eqn:Ec; [|reflexivity].
      apply N.eqb_eq in Ec. subst c. congruence. }
    destruct (IH false) as [Hn _]. split.
    + rewrite no_double_cons, Hn, Hc. reflexivity.
    + intros _. simpl. exact Hc.
Qed.

Lemma no_double_app_inv x y :
  no_double_space (x ++ y) = true ->
  no_double_space x = true /\ no_double_space y = true.
Proof.
  induction x as [|a x IH]; intros H; [split; [reflexivity | exact H]|].
  cbn [app] in H. rewrite no_double_cons in H. apply andb_prop in H.
  destruct H as [H1 H2]. destruct (IH H2) as [Hx Hy]. split; [|exact Hy].
  rewrite no_double_cons, Hx, andb_true_r.
  destruct x as [|b x]; [simpl; rewrite andb_false_r; reflexivity | exact H1].
Qed.

Lemma trimStart_suffix s : exists t, s = t ++ trimStart s.
Proof.
  induction s as [|c s IH]; simpl; [exists []; reflexivity|].
  destruct (isSpace c); [|exists []; reflexivity].
  destruct IH as [t IH]. exists (c :: t). simpl. rewrite <- IH. reflexivity.
Qed.

Lemma trimEnd_prefix s : exists t, s = trimEnd s ++ t.
Proof.
  unfold trimEnd. destruct (trimStart_suffix (rev s)) as [t H].
  exists (rev t). rewrite <- rev_app_distr, <- H, rev_involutive. reflexivity.
Qed.

Lemma trim_no_double s :
  no_double_space s = true -> no_double_space (trim s) = true.
Proof.
  intros H. unfold trim.
  destruct (trimStart_suffix s) as [t Ht]. rewrite Ht in H.
  apply no_double_app_inv in H. destruct H as [_ H].
  destruct (trimEnd_prefix (trimStart s)) as [u Hu]. rewrite Hu in H.
  apply no_double_app_inv in H. apply H.
Qed.

Lemma no_double_join_lf x y :
  no_double_space x = true -> no_double_space y = true ->
  no_double_space (x ++ LF :: y) = true.
Proof.
  intros Hx Hy. induction x as [|a x IH].
  - cbn [app]. rewrite no_double_cons, Hy. reflexivity.
  - cbn [app]. rewrite no_double_cons in Hx. apply andb_prop in Hx.
    destruct Hx as [H1 H2]. rewrite no_double_cons, (IH H2), andb_true_r.
    destruct x as [|b x]; [simpl; rewrite andb_false_r; reflexivity | exact H1].
Qed.

Lemma join_no_double ls :
  Forall (fun l => no_double_space l = true) ls ->
  no_double_space (join [LF] ls) = true.
Proof.
  induction ls as [|x ls IH]; intros H; [reflexivity|].
  inversion H; subst. destruct ls as [|y ls]; [assumption|].
  change (join [LF] (x :: y :: ls)) with (x ++ [LF] ++ join [LF] (y :: ls)).
  apply no_double_join_lf; [assumption | apply IH; assumption].
Qed.

Lemma stageC_split line :
  run_passes stageC line
  = collapse_spaces (strip_ticks (run_passes (firstn 8 stageC) line)).
Proof. reflexivity. Qed.

Lemma normalizeVariables_no_double line :
  no_double_space (normalizeVariables line) = true.
Proof.
  unfold normalizeVariables. rewrite stageC_split. apply trim_no_double.
  unfold collapse_spaces, re_spaces. rewrite replace_plus_class.
  apply squeeze_go_no_double. reflexivity.
Qed.

Lemma sanitizeOutput_no_double raw : no_double_space (sanitizeOutput raw) = true.
Proof.
  unfold sanitizeOutput. destruct raw as [|c raw]; [reflexivity|].
  unfold sanitizeFrom. apply trim_no_double, join_no_double.
  apply Forall_map, Forall_forall. intros l _.
  apply normalizeVariables_no_double.
Qed.

Lemma stageA_split raw :
  cleaned raw = collapse_blanks (run_passes (firstn 17 stageA) raw).
Proof. reflexivity. Qed.

Lemma collapse_blanks_plain s :
  Forall (fun c => plain_space c = true) (collapse_blanks s).
Proof.
  unfold collapse_blanks, re_blanks. rewrite replace_plus_class.
  eapply Forall_impl; [|apply squeeze_go_chars].
  intros c [->|H]; [reflexivity|].
  unfold plain_space.
  change (class_match f_ true [CNotSpace; CChar CR; CChar LF] c)
    with (negb (negb (isSpace c) || ((13 =? c)%N || ((10 =? c)%N || false)))) in H.
  apply negb_false_iff in H. rewrite orb_false_r in H.
  rewrite (N.eqb_sym c 13), (N.eqb_sym c 10).
  apply orb_prop in H. destruct H as [H|H].
  - rewrite H. reflexivity.
  - apply orb_prop in H. destruct H as [H|H]; rewrite H;
      rewrite ?orb_true_r; reflexivity.
Qed.

Lemma sanitizeOutput_plain raw :
  Forall (fun c => plain_space c = true) (sanitizeOutput raw).
Proof.
  unfold sanitizeOutput. destruct raw as [|a raw]; [constructor|].
  set (r := a :: raw). unfold sanitizeFrom.
  apply finish_ok; [reflexivity | reflexivity|].
  apply filteredLines_ok. rewrite stageA_split. apply collapse_blanks_plain.
Qed.

Lemma normalizeVariables_no_ticks line :
  Forall (fun c => negb ((c =? 96)%N || (c =? 126)%N) = true)
         (normalizeVariables line).
Proof.
  unfold normalizeVariables. rewrite stageC_split. apply trim_ok.
  unfold collapse_spaces. apply replace_all_ok; [repeat constructor|].
  rewrite strip_ticks_filter. apply Forall_forall. intros c Hc.
  apply filter_In in Hc. apply Hc.
Qed.

Lemma sanitizeOutput_no_ticks raw :
  Forall (fun c => negb ((c =? 96)%N || (c =? 126)%N) = true) (sanitizeOutput raw).
Proof.
  unfold sanitizeOutput. destruct raw as [|a raw]; [constructor|].
  unfold sanitizeFrom. apply trim_ok, join_ok; [repeat constructor|].
  apply Forall_map, Forall_forall. intros l _.
  apply normalizeVariables_no_ticks.
Qed.

(** ** Cutting a match out of a text *)

Lemma replace_go_copy_pos fl r t :
  forall pre s p,
    (forall u c v q, pre = u ++ c :: v -> match_here fl r q (c :: v ++ s) = None) ->
    replace_go fl r t p (pre ++ s) 0
    = pre ++ replace_go fl r t (last (map Some pre) p) s 0.
Proof.
  induction pre as [|c pre IH]; intros s p H; [reflexivity|].
  cbn [app]. rewrite replace_go_miss by (apply (H [] c pre p); reflexivity).
  rewrite IH by (intros u d v q E; apply (H (c :: u) d v q); rewrite E; reflexivity).
  cbn [map]. rewrite (last_shift _ (map Some pre) (Some c) p). reflexivity.
Qed.

Lemma replace_all_cut fl r pre m post :
  ctxfree r = true -> m <> [] ->
  (forall u c v q, pre = u ++ c :: v ->
     match_here fl r q (c :: v ++ m ++ post) = None) ->
  (forall p, exists q, match_here fl r p (m ++ post) = Some (MkSt q post [])) ->
  replace_all fl r [] (pre ++ m ++ post) = pre ++ replace_all fl r [] post.
Proof.
  intros Hc Hm Hpre Hhit. unfold replace_all.
  rewrite replace_go_copy_pos by exact Hpre. f_equal.
  destruct (Hhit (last (map Some pre) None)) as [q Hq].
  rewrite (replace_go_hit fl r [] _ m post (MkSt q post []) Hm Hq eq_refl).
  cbn [expand flat_map app]. apply replace_go_forget, Hc.
Qed.

Lemma lacks_no_match fl r x pre s :
  lacks x pre = true ->
  (forall q c tl, (c =? x)%N = false -> match_here fl r q (c :: tl) = None) ->
  forall u c v q, pre = u ++ c :: v -> match_here fl r q (c :: v ++ s) = None.
Proof.
  intros Hl H u c v q E. apply H.
  apply lacks_Forall in Hl. rewrite Forall_forall in Hl. apply Hl.
  rewrite E. apply in_or_app. right. left. reflexivity.
Qed.

(** ** Literal prefixes *)

Lemma starts_app w x y : length w <= length x -> starts w (x ++ y) = starts w x.
Proof.
  revert x. induction w as [|a w IH]; intros x H; [destruct x; reflexivity|].
  destruct x as [|c x]; [simpl in H; lia|].
  simpl in *. rewrite IH by lia. reflexivity.
Qed.

Lemma occurs_starts w s : occurs w s = false -> starts w s = false.
Proof.
  destruct s; simpl; intros H; apply orb_false_iff in H; apply H.
Qed.

Lemma occurs_tail w c s : occurs w (c :: s) = false -> occurs w s = false.
Proof. simpl. intros H. apply orb_false_iff in H. apply H. Qed.

Lemma occurs_app w u s : occurs w (u ++ s) = false -> occurs w s = false.
Proof.
  induction u as [|c u IH]; intros H; [exact H|].
  apply IH. apply (occurs_tail w c). exact H.
Qed.

Lemma rmatch_litu_fail fl w :
  ignoreCase fl = false ->
  forall st, starts w (rest st) = false -> rmatch fl (litu w) st = [].
Proof.
  intros Hfl. unfold litu, seqs.
  induction w as [|a w IH]; intros st H; [discriminate|].
  cbn [map fold_right]. destruct st as [p s cs]. cbn [rest] in H.
  destruct s as [|c s]; [apply rmatch_seq_fail; reflexivity|].
  cbn [starts] in H. destruct (a =? c)%N eqn:E.
  - cbn [rmatch]. unfold consume at 1. cbn [rest caps]. unfold chr_eq.
    rewrite Hfl, E. cbn [flat_map]. rewrite app_nil_r. apply IH. exact H.
  - apply rmatch_seq_fail, rmatch_chr_fail. unfold chr_eq. rewrite Hfl. exact E.
Qed.

(** ** Runs of a consuming pattern *)

Lemma leads_star_consume fl r q :
  (forall st, rmatch fl r st = consume st q) ->
  forall A p tl cs,
    Forall (fun c => q c = true) A ->
    match tl with [] => True | c :: _ => q c = false end ->
    leads fl (Star true r) (MkSt p (A ++ tl) cs)
          (MkSt (last (map Some A) p) tl cs).
Proof.
  intros Hr A p tl cs HA Htl. unfold leads.
  cbn [rmatch rest]. generalize (Nat.le_refl (length (A ++ tl))).
  generalize (length (A ++ tl)) at 2 3. intros n Hn.
  set (f := rmatch fl r).
  assert (Hhit : forall u c t, q c = true ->
                   f (MkSt u (c :: t) cs) = [MkSt (Some c) t cs]).
  { intros u c t H. unfold f. rewrite Hr. unfold consume. simpl.
    rewrite H. reflexivity. }
  assert (Hmiss : forall u, f (MkSt u tl cs) = []).
  { intros u. unfold f. rewrite Hr. unfold consume. simpl.
    destruct tl as [|c t]; [reflexivity|]. rewrite Htl. reflexivity. }
  clearbody f.
  revert p n Hn. induction A as [|a A IH]; intros p n Hn.
  - exists []. destruct n as [|n]; [reflexivity|].
    cbn [star_loop app map last]. rewrite Hmiss. reflexivity.
  - inversion HA; subst. destruct n as [|n]; [simpl in Hn; lia|].
    simpl in Hn. apply le_S_n in Hn.
    destruct (IH H2 (Some a) n Hn) as [more E].
    exists (more ++ [MkSt p ((a :: A) ++ tl) cs]).
    cbn [star_loop app]. rewrite (Hhit p a (A ++ tl) H1).
    cbn [filter]. rewrite progress_cons.
    cbn [flat_map]. rewrite app_nil_r, E.
    cbn [map]. rewrite last_shift. reflexivity.
Qed.

Lemma leads_litu_fl fl :
  forall w p tl cs,
    leads fl (litu w) (MkSt p (w ++ tl) cs) (MkSt (last (map Some w) p) tl cs).
Proof.
  unfold litu, seqs.
  induction w as [|c w IH]; intros p tl cs; cbn [map fold_right app].
  - apply leads_eps.
  - eapply leads_seq.
    + apply leads_chr. unfold chr_eq. destruct (ignoreCase fl); apply N.eqb_refl.
    + rewrite last_shift. apply IH.
Qed.

Lemma leads_eol fl st : at_eol fl st = true -> leads fl Eol st st.
Proof. intros H. exists []. cbn [rmatch]. rewrite H. reflexivity. Qed.

Lemma leads_bol fl st : at_bol fl st = true -> leads fl Bol st st.
Proof. intros H. exists []. cbn [rmatch]. rewrite H. reflexivity. Qed.

Lemma one_line_Forall s :
  one_line s = true -> Forall (fun c => negb (isLineTerminator c) = true) s.
Proof.
  unfold one_line. intros H. apply Forall_forall. intros c Hc.
  rewrite forallb_forall in H. apply H, Hc.
Qed.

Lemma line_end_eol p s cs : at_line_end s = true -> at_eol f_m (MkSt p s cs) = true.
Proof. unfold at_line_end, at_eol. simpl. destruct s; auto. Qed.

Lemma line_end_any s :
  at_line_end s = true ->
  match s with [] => True | c :: _ => negb (isLineTerminator c) = false end.
Proof.
  unfold at_line_end. destruct s as [|c s]; [auto|].
  intros H. rewrite H. reflexivity.
Qed.

(** From a marker to the end of its line. *)
Lemma to_line_end_leads w p tail post :
  one_line tail = true -> at_line_end post = true ->
  leads f_m (seqs [litu w; Star true Any; Eol])
        (MkSt p (w ++ tail ++ post) [])
        (MkSt (last (map Some tail) (last (map Some w) p)) post []).
Proof.
  intros Ht Hp. unfold seqs. cbn [fold_right].
  eapply leads_seq; [apply leads_litu_fl|].
  eapply leads_seq.
  { apply (leads_star_consume f_m Any (fun c => negb (isLineTerminator c)));
      [reflexivity | apply one_line_Forall, Ht | apply line_end_any, Hp]. }
  eapply leads_seq; [apply leads_eol, line_end_eol, Hp | apply leads_eps].
Qed.

Lemma strip_line_comment_cut pre tail post :
  occurs (js "//") (pre ++ js "/") = false ->
  one_line tail = true -> at_line_end post = true ->
  strip_line_comment (pre ++ js "//" ++ tail ++ post)
  = pre ++ strip_line_comment post.
Proof.
  intros Hpre Ht Hp. unfold strip_line_comment.
  rewrite (app_assoc (js "//") tail post).
  apply replace_all_cut; [reflexivity | discriminate | |].
  - intros u c v q E. unfold match_here, re_line_comment.
    change (lit "//") with (litu (js "//")). unfold seqs. cbn [fold_right].
    rewrite rmatch_seq_fail; [reflexivity|].
    apply rmatch_litu_fail; [reflexivity|]. cbn [rest].
    rewrite E, <- app_assoc in Hpre. apply occurs_app, occurs_starts in Hpre.
    cbn [app] in Hpre.
    replace (c :: v ++ (js "//" ++ tail) ++ post)
      with ((c :: v ++ js "/") ++ (js "/" ++ tail ++ post))
      by (cbn [app]; rewrite <- !app_assoc; reflexivity).
    rewrite starts_app; [exact Hpre|].
    simpl. rewrite length_app. simpl. lia.
  - intros p. eexists. apply leads_match_here.
    rewrite <- (app_assoc (js "//") tail post).
    apply (to_line_end_leads (js "//") p tail post Ht Hp).
Qed.

Lemma strip_hash_cut pre tail post :
  lacks 35%N pre = true ->
  one_line tail = true -> at_line_end post = true ->
  strip_hash (pre ++ js "#" ++ tail ++ post) = pre ++ strip_hash post.
Proof.
  intros Hpre Ht Hp. unfold strip_hash.
  rewrite (app_assoc (js "#") tail post).
  apply replace_all_cut; [reflexivity | discriminate | |].
  - apply (lacks_no_match f_m re_hash 35%N pre _ Hpre).
    intros q c tl E. unfold match_here, re_hash, seqs, ch. cbn [fold_right].
    rewrite rmatch_seq_fail; [reflexivity|]. apply rmatch_chr_fail.
    change (chr_eq f_m (N_of_ascii "#") c) with (35 =? c)%N.
    rewrite N.eqb_sym. exact E.
  - intros p. eexists. apply leads_match_here.
    rewrite <- (app_assoc (js "#") tail post).
    apply (to_line_end_leads (js "#") p tail post Ht Hp).
Qed.

(** ** Line 68 on a text macro *)

Lemma strip_text_cut pre A post :
  lacks 92%N pre = true -> lacks 125%N A = true ->
  strip_text (pre ++ text_macro A ++ post) = pre ++ strip_text post.
Proof.
  intros Hpre HA. unfold strip_text.
  apply replace_all_cut; [reflexivity | discriminate | |].
  - apply (lacks_no_match f_ re_text 92%N pre _ Hpre).
    intros q c tl E. unfold match_here, re_text, seqs. cbn [fold_right].
    change (lit "\text{") with (Seq (Chr 92%N) (litu (js "text{"))).
    rewrite rmatch_seq_fail; [reflexivity|].
    apply rmatch_seq_fail, rmatch_chr_fail.
    change (chr_eq f_ 92%N c) with (92 =? c)%N. rewrite N.eqb_sym. exact E.
  - intros p. exists (Some 125%N). apply leads_match_here.
    unfold text_macro. rewrite <- !app_assoc.
    unfold re_text, seqs. cbn [fold_right].
    eapply leads_seq; [apply (leads_litu (js "\text{"))|].
    eapply leads_seq;
      [apply leads_star_class; [apply operand_run, HA | reflexivity]|].
    eapply leads_seq; [apply leads_chr; reflexivity | apply leads_eps].
Qed.

Lemma replace_all_untouched fl r t s :
  (forall u c v q, s = u ++ c :: v -> match_here fl r q (c :: v) = None) ->
  (forall q, match_here fl r q [] = None) ->
  replace_all fl r t s = s.
Proof.
  intros H Hnil. unfold replace_all.
  rewrite <- (app_nil_r s) at 1. rewrite replace_go_copy_pos.
  - cbn [replace_go]. rewrite Hnil, app_nil_r. reflexivity.
  - intros u c v q E. rewrite app_nil_r. apply (H u c v q E).
Qed.

Lemma strip_line_comment_keeps s :
  occurs (js "//") s = false -> strip_line_comment s = s.
Proof.
  intros H. apply replace_all_untouched; [|reflexivity].
  intros u c v q E. unfold match_here, re_line_comment.
  change (lit "//") with (litu (js "//")). unfold seqs. cbn [fold_right].
  rewrite rmatch_seq_fail; [reflexivity|].
  apply rmatch_litu_fail; [reflexivity|]. cbn [rest].
  rewrite E in H. apply occurs_app, occurs_starts in H. exact H.
Qed.

(** ** Line 66 *)

Lemma rmatch_chr_inv a st y :
  In y (rmatch f_ (Chr a) st) -> rest st = a :: rest y.
Proof.
  cbn [rmatch]. unfold consume. destruct (rest st) as [|c tl]; [intros []|].
  unfold chr_eq. simpl. destruct (a =? c)%N eqn:E; [|intros []].
  apply N.eqb_eq in E. subst c. intros [<-|[]]. reflexivity.
Qed.

Lemma rmatch_opt_chr_inv a st y :
  In y (rmatch f_ (Opt (Chr a)) st) -> rest st = rest y \/ rest st = a :: rest y.
Proof.
  cbn [rmatch]. intros H. apply in_app_or in H. destruct H as [H|[<-|[]]].
  - apply filter_In in H. destruct H as [H _]. right.
    apply (rmatch_chr_inv a st y H).
  - left. reflexivity.
Qed.

Lemma brackets_match_inv st y :
  In y (rmatch f_ re_brackets st) ->
  occurs (js "[]") (rest st) = true \/ occurs (js "[\]") (rest st) = true.
Proof.
  unfold re_brackets, seqs, ch. cbn [fold_right]. intros H.
  cbn [rmatch] in H.
  apply in_flat_map in H. destruct H as (s1 & H1 & H).
  apply in_flat_map in H. destruct H as (s2 & H2 & H).
  apply in_flat_map in H. destruct H as (s3 & H3 & H).
  apply in_flat_map in H. destruct H as (s4 & H4 & H).
  apply (rmatch_opt_chr_inv _ st s1) in H1.
  apply (rmatch_chr_inv _ s1 s2) in H2.
  apply (rmatch_opt_chr_inv _ s2 s3) in H3.
  apply (rmatch_chr_inv _ s3 s4) in H4.
  destruct H1 as [-> | ->]; rewrite H2; destruct H3 as [-> | ->]; rewrite H4.
  - left. reflexivity.
  - right. reflexivity.
  - left. reflexivity.
  - right. reflexivity.
Qed.

Lemma strip_brackets_keeps s :
  occurs (js "[]") s = false -> occurs (js "[\]") s = false ->
  strip_brackets s = s.
Proof.
  intros H1 H2.
  assert (Hno : forall q t, occurs (js "[]") t = false ->
                  occurs (js "[\]") t = false ->
                  match_here f_ re_brackets q t = None).
  { intros q t Ha Hb. unfold match_here.
    destruct (rmatch f_ re_brackets (MkSt q t [])) as [|y l] eqn:E; [reflexivity|].
    assert (Hin : In y (rmatch f_ re_brackets (MkSt q t [])))
      by (rewrite E; left; reflexivity).
    apply brackets_match_inv in Hin. cbn [rest] in Hin.
    destruct Hin; congruence. }
  apply replace_all_untouched.
  - intros u c v q E. rewrite E in H1, H2.
    apply Hno; [apply (occurs_app _ u), H1 | apply (occurs_app _ u), H2].
  - intros q. apply Hno; reflexivity.
Qed.

(** ** Line 75 *)

Lemma last_map_some (m : jsstring) p :
  m <> [] -> exists c, last (map Some m) p = Some c /\ In c m.
Proof.
  revert p. induction m as [|a m IH]; intros p H; [contradiction|].
  cbn [map]. rewrite last_shift. destruct m as [|b m].
  - exists a. split; [reflexivity | left; reflexivity].
  - destruct (IH (Some a)) as (c & E & Hc); [discriminate|].
    exists c. split; [exact E | right; exact Hc].
Qed.

(** A pattern that starts with [^] finds nothing in the rest of a line. *)
Lemma bol_blocked fl r t :
  forall s c,
    isLineTerminator c = false ->
    Forall (fun d => negb (isLineTerminator d) = true) s ->
    replace_go fl (Seq Bol r) t (Some c) s 0 = s.
Proof.
  assert (Hno : forall c s, isLineTerminator c = false ->
                  match_here fl (Seq Bol r) (Some c) s = None).
  { intros c s H. unfold match_here. rewrite rmatch_seq_fail; [reflexivity|].
    cbn [rmatch]. unfold at_bol. cbn [prev]. rewrite H, andb_false_r.
    reflexivity. }
  induction s as [|d s IH]; intros c Hc Hs.
  - cbn [replace_go]. rewrite Hno by exact Hc. reflexivity.
  - inversion Hs; subst. rewrite replace_go_miss by (apply Hno, Hc).
    rewrite IH; [reflexivity | apply negb_true_iff; assumption | assumption].
Qed.

Lemma sp_class c : class_match f_m false [CSpace] c = isSpace c.
Proof. unfold class_match. simpl. apply orb_false_r. Qed.

Lemma digit_class c : class_match f_m false [CDigit] c = isDigit c.
Proof. unfold class_match. simpl. apply orb_false_r. Qed.

Lemma dropRun_ext p q s : (forall c, p c = q c) -> dropRun p s = dropRun q s.
Proof.
  intros H. induction s as [|c s IH]; simpl; [reflexivity|].
  rewrite (H c). destruct (q c); [exact IH | reflexivity].
Qed.

Lemma dropRun_sp s : dropRun (class_match f_m false [CSpace]) s = trimStart s.
Proof. rewrite (dropRun_ext _ isSpace s sp_class). apply dropRun_trimStart. Qed.

Lemma takeRun_incl p s : incl (takeRun p s) s.
Proof.
  induction s as [|c s IH]; simpl; [apply incl_refl|].
  destruct (p c); [|intros x []].
  intros x [<-|H]; [left; reflexivity | right; apply IH, H].
Qed.

Lemma digit_not_space d : isDigit d = true -> isSpace d = false.
Proof.
  unfold isDigit, isSpace, between. intros H. apply andb_prop in H.
  destruct H as [H1 H2]. apply N.leb_le in H1. apply N.leb_le in H2.
  repeat (apply orb_false_iff; split);
    try (apply andb_false_iff; (left; apply N.leb_gt; lia) || (right; apply N.leb_gt; lia));
    apply N.eqb_neq; lia.
Qed.

Lemma digit_not_lt d : isDigit d = true -> isLineTerminator d = false.
Proof.
  unfold isDigit, isLineTerminator, between. intros H. apply andb_prop in H.
  destruct H as [H1 H2]. apply N.leb_le in H1. apply N.leb_le in H2.
  repeat (apply orb_false_iff; split); apply N.eqb_neq; lia.
Qed.

Lemma numbering_leads d ds rest :
  isDigit d = true -> forallb isDigit ds = true ->
  leads f_m re_numbering (MkSt None (d :: ds ++ 46%N :: rest) [])
    (MkSt (last (map Some (takeRun (class_match f_m false [CSpace]) rest))
                (Some 46%N))
          (trimStart rest) []).
Proof.
  intros Hd Hds. unfold re_numbering, seqs. cbn [fold_right].
  set (qs := class_match f_m false [CSpace]).
  eapply leads_seq; [apply leads_bol; reflexivity|].
  eapply leads_seq.
  { apply (leads_star_class f_m false [CSpace] [] None (d :: ds ++ 46%N :: rest) []);
      [constructor|]. rewrite sp_class. apply digit_not_space, Hd. }
  cbn [map last].
  eapply leads_seq.
  { unfold Plus. eapply leads_seq.
    - apply leads_class. rewrite digit_class. exact Hd.
    - apply (leads_star_class f_m false [CDigit] ds (Some d) (46%N :: rest) []).
      + apply Forall_forall. intros c Hc. rewrite digit_class.
        rewrite forallb_forall in Hds. apply Hds, Hc.
      + reflexivity. }
  eapply leads_seq; [apply leads_chr; reflexivity|].
  eapply leads_seq; [|apply leads_eps].
  rewrite <- (dropRun_sp rest).
  rewrite <- (takeRun_dropRun qs rest) at 1.
  apply leads_star_class; [apply takeRun_all | apply dropRun_head].
Qed.

Lemma strip_numbering_line d ds rest :
  isDigit d = true -> forallb isDigit ds = true -> one_line rest = true ->
  strip_numbering (d :: ds ++ 46%N :: rest) = trimStart rest.
Proof.
  intros Hd Hds Hr. unfold strip_numbering, replace_all.
  set (qs := class_match f_m false [CSpace]).
  set (m := d :: ds ++ 46%N :: takeRun qs rest).
  assert (Hsplit : d :: ds ++ 46%N :: rest = m ++ trimStart rest).
  { unfold m. cbn [app]. rewrite <- app_assoc. cbn [app].
    rewrite <- (dropRun_sp rest). fold qs. rewrite takeRun_dropRun. reflexivity. }
  assert (Hrest := one_line_Forall rest Hr).
  rewrite Hsplit.
  rewrite (replace_go_hit f_m re_numbering [] None m (trimStart rest)
             (MkSt (last (map Some (takeRun qs rest)) (Some 46%N))
                   (trimStart rest) [])).
  - cbn [expand flat_map app].
    destruct (last_map_some m None) as (c & -> & Hc); [discriminate|].
    apply (bol_blocked f_m).
    + unfold m in Hc. destruct Hc as [<-|Hc]; [apply digit_not_lt, Hd|].
      apply in_app_or in Hc. destruct Hc as [Hc|[<-|Hc]].
      * rewrite forallb_forall in Hds. apply digit_not_lt, Hds, Hc.
      * reflexivity.
      * apply takeRun_incl in Hc. rewrite Forall_forall in Hrest.
        apply negb_true_iff, Hrest, Hc.
    + apply trimStart_ok. exact Hrest.
  - discriminate.
  - rewrite <- Hsplit. apply leads_match_here, numbering_leads; assumption.
  - reflexivity.
Qed.

(** ** Splitting into lines and joining *)

Lemma split_go_miss fl r p c s acc :
  match_here fl r p (c :: s) = None ->
  split_go fl r p (c :: s) 0 acc = split_go fl r (Some c) s 0 (c :: acc).
Proof. intros H. cbn [split_go]. rewrite H. reflexivity. Qed.

Lemma split_go_hit1 fl r p c s acc st :
  match_here fl r p (c :: s) = Some st -> rest st = s ->
  split_go fl r p (c :: s) 0 acc = rev acc :: split_go fl r (Some c) s 0 [].
Proof.
  intros H E. cbn [split_go]. rewrite H. unfold matched_len. rewrite E.
  cbn [length]. replace (S (length s) - length s) with 1 by lia.
  destruct acc; reflexivity.
Qed.

Lemma split_go_nonnil fl r p s skip acc : split_go fl r p s skip acc <> [].
Proof.
  intros E. pose proof (split_go_length fl r s p skip acc) as L.
  rewrite E in L. simpl in L. lia.
Qed.

Lemma join_cons sep x l :
  l <> [] -> join sep (x :: l) = x ++ sep ++ join sep l.
Proof. destruct l; [contradiction | reflexivity]. Qed.

Lemma newline_here p s :
  match_here f_ re_newline p (LF :: s) = Some (MkSt (Some LF) s []).
Proof.
  apply leads_match_here. unfold re_newline, seqs. cbn [fold_right].
  eapply leads_seq; [apply leads_opt_skip, rmatch_chr_fail; reflexivity|].
  eapply leads_seq; [apply leads_chr; reflexivity | apply leads_eps].
Qed.

Lemma newline_miss p c s :
  (c =? 13)%N = false -> (c =? 10)%N = false ->
  match_here f_ re_newline p (c :: s) = None.
Proof.
  intros H13 H10. unfold match_here, re_newline, seqs. cbn [fold_right].
  assert (E1 : rmatch f_ (Chr CR) (MkSt p (c :: s) []) = []).
  { apply rmatch_chr_fail. change (chr_eq f_ CR c) with (13 =? c)%N.
    rewrite N.eqb_sym. exact H13. }
  assert (E2 : rmatch f_ (Seq (Chr LF) Eps) (MkSt p (c :: s) []) = []).
  { apply rmatch_seq_fail, rmatch_chr_fail.
    change (chr_eq f_ LF c) with (10 =? c)%N. rewrite N.eqb_sym. exact H10. }
  cbn [rmatch] in *. rewrite E1. cbn [filter app flat_map]. rewrite E2.
  reflexivity.
Qed.

Lemma split_join_go :
  forall s p acc,
    lacks 13%N s = true ->
    join [LF] (split_go f_ re_newline p s 0 acc) = rev acc ++ s.
Proof.
  induction s as [|c s IH]; intros p acc H.
  - cbn [split_go join]. rewrite app_nil_r. reflexivity.
  - cbn [lacks forallb] in H. apply andb_prop in H. destruct H as [Hc Hs].
    apply negb_true_iff in Hc. fold (lacks 13%N s) in Hs.
    destruct (c =? 10)%N eqn:E.
    + apply N.eqb_eq in E. subst c.
      rewrite (split_go_hit1 f_ re_newline p 10%N s acc _ (newline_here p s) eq_refl).
      rewrite join_cons.
      * rewrite (IH _ [] Hs). reflexivity.
      * apply split_go_nonnil.
    + rewrite split_go_miss by (apply newline_miss; assumption).
      rewrite (IH _ (c :: acc) Hs). cbn [rev]. rewrite <- app_assoc. reflexivity.
Qed.

Lemma lines_join text : lacks 13%N text = true -> join [LF] (lines text) = text.
Proof.
  intros H. unfold lines, split. destruct text as [|c s]; [reflexivity|].
  rewrite split_join_go by exact H. reflexivity.
Qed.

(** ** The result is never longer than the input *)

Lemma consume_caps st p y : In y (consume st p) -> caps y = caps st.
Proof.
  unfold consume. destruct (rest st) as [|c tl]; [intros []|].
  destruct (p c); [|intros []]. intros [<-|[]]. reflexivity.
Qed.

Lemma guard_caps b st y : In y (guard b st) -> caps y = caps st.
Proof. destruct b; [intros [<-|[]]; reflexivity | intros []]. Qed.

Lemma star_loop_caps g f :
  (forall st y, In y (f st) -> caps y = caps st) ->
  forall n st y, In y (star_loop g f n st) -> caps y = caps st.
Proof.
  intros Hf. induction n as [|n IH]; intros st y H; simpl in H.
  - destruct H as [<-|[]]. reflexivity.
  - assert (Hmore : In y (flat_map (star_loop g f n)
                            (filter (progress st) (f st))) -> caps y = caps st).
    { intros Hin. apply in_flat_map in Hin. destruct Hin as (x & Hx & Hin).
      apply filter_In in Hx. destruct Hx as [Hx _].
      rewrite (IH x y Hin). apply Hf, Hx. }
    destruct g.
    + apply in_app_or in H. destruct H as [H|[<-|[]]]; [auto | reflexivity].
    + destruct H as [<-|H]; [reflexivity | auto].
Qed.

Lemma groupfree_caps fl r :
  groupfree r = true ->
  forall st y, In y (rmatch fl r st) -> caps y = caps st.
Proof.
  induction r; intros Hg st y H; cbn [rmatch] in H; simpl in Hg;
    try discriminate;
    try (apply consume_caps in H; exact H);
    try (apply guard_caps in H; exact H).
  - destruct H as [<-|[]]. reflexivity.
  - apply andb_prop in Hg. destruct Hg as [H1 H2].
    apply in_flat_map in H. destruct H as (x & Hx & H).
    rewrite (IHr2 H2 x y H). apply IHr1; assumption.
  - apply andb_prop in Hg. destruct Hg as [H1 H2].
    apply in_app_or in H. destruct H; [apply IHr1 | apply IHr2]; assumption.
  - eapply star_loop_caps; [|exact H]. apply IHr, Hg.
  - apply in_app_or in H. destruct H as [H|[<-|[]]]; [|reflexivity].
    apply filter_In in H. destruct H as [H _]. apply IHr; assumption.
  - specialize (IHr Hg st).
    destruct (rmatch fl r st) as [|x l]; [destruct H|].
    destruct H as [<-|[]]. simpl. apply IHr. left. reflexivity.
Qed.

Lemma capsum_cons x cs : capsum (x :: cs) = length (snd x) + capsum cs.
Proof. reflexivity. Qed.

Lemma capsum_filter f cs : capsum (filter f cs) <= capsum cs.
Proof.
  unfold capsum. induction cs as [|x cs IH]; simpl; [lia|].
  destruct (f x); simpl; lia.
Qed.

Lemma groupfree_bound fl r st y :
  groupfree r = true -> In y (rmatch fl r st) ->
  capsum (caps y) + length (rest y) <= capsum (caps st) + length (rest st).
Proof.
  intros Hg H. rewrite (groupfree_caps fl r Hg st y H).
  apply rmatch_length in H. lia.
Qed.

Lemma flat_bound fl r :
  flat r = true ->
  forall st y, In y (rmatch fl r st) ->
    capsum (caps y) + length (rest y) <= capsum (caps st) + length (rest st).
Proof.
  induction r; intros Hf st y H; simpl in Hf;
    try (eapply groupfree_bound; [|exact H]; (exact Hf || reflexivity)).
  - cbn [rmatch] in H. apply andb_prop in Hf. destruct Hf as [H1 H2].
    apply in_flat_map in H. destruct H as (x & Hx & H).
    specialize (IHr1 H1 st x Hx). specialize (IHr2 H2 x y H). lia.
  - cbn [rmatch] in H. apply andb_prop in Hf. destruct Hf as [H1 H2].
    apply in_app_or in H. destruct H; [apply IHr1 | apply IHr2]; assumption.
  - cbn [rmatch] in H. apply in_map_iff in H. destruct H as (x & <- & Hx).
    assert (Hc := groupfree_caps fl r Hf st x Hx).
    assert (Hl := rmatch_length fl r st x Hx).
    unfold capture, set_cap. cbn [caps rest]. rewrite capsum_cons. cbn [snd].
    pose proof (capsum_filter (fun p => negb (fst p =? i)) (caps x)) as Hfil.
    rewrite Hc in Hfil. rewrite Hc. rewrite length_firstn. lia.
Qed.

Lemma get_cap_cons i x cs :
  get_cap i (x :: cs) = if fst x =? i then snd x else get_cap i cs.
Proof. unfold get_cap. cbn [find]. destruct (fst x =? i); reflexivity. Qed.

Lemma get_cap_le i cs : length (get_cap i cs) <= capsum cs.
Proof.
  induction cs as [|x cs IH]; [simpl; lia|].
  rewrite capsum_cons, get_cap_cons. destruct (fst x =? i); lia.
Qed.

Lemma get_cap_pair i j cs :
  i <> j -> length (get_cap i cs) + length (get_cap j cs) <= capsum cs.
Proof.
  intros Hij. induction cs as [|x cs IH]; [simpl; lia|].
  pose proof (get_cap_le i cs) as Hi. pose proof (get_cap_le j cs) as Hj.
  rewrite capsum_cons, !get_cap_cons.
  destruct (fst x =? i) eqn:Ei; destruct (fst x =? j) eqn:Ej; try lia.
  apply Nat.eqb_eq in Ei. apply Nat.eqb_eq in Ej. congruence.
Qed.

Lemma expand_JOIN_le st : length (expand JOIN st) <= capsum (caps st).
Proof.
  unfold expand, JOIN. cbn [flat_map]. rewrite app_nil_r, length_app.
  apply get_cap_pair. discriminate.
Qed.

Lemma replace_go_length fl r t :
  (forall p s st, match_here fl r p s = Some st ->
     length (expand t st) <= matched_len s st) ->
  forall s p skip, length (replace_go fl r t p s skip) <= length s - skip.
Proof.
  intros H. induction s as [|c s IH]; intros p skip.
  - destruct skip; cbn [replace_go]; [|cbn [length]; lia].
    destruct (match_here fl r p []) as [st|] eqn:E; [|cbn [length]; lia].
    apply H in E. unfold matched_len in E. rewrite app_nil_r. cbn [length] in *. lia.
  - destruct skip as [|k]; cbn [replace_go].
    + destruct (match_here fl r p (c :: s)) as [st|] eqn:E.
      * apply H in E. rewrite length_app.
        destruct (matched_len (c :: s) st) as [|k] eqn:L.
        -- specialize (IH (Some c) 0). cbn [length] in *. lia.
        -- specialize (IH (Some c) k). unfold matched_len in L.
           cbn [length] in *. lia.
      * specialize (IH (Some c) 0). cbn [length] in *. lia.
    + specialize (IH (Some c) k). cbn [length]. lia.
Qed.

Lemma replace_nil_length fl r s : length (replace_all fl r [] s) <= length s.
Proof.
  unfold replace_all.
  pose proof (replace_go_length fl r [] (fun _ _ _ _ => Nat.le_0_l _) s None 0).
  lia.
Qed.

Lemma replace_JOIN_length fl r s :
  flat r = true -> length (replace_all fl r JOIN s) <= length s.
Proof.
  intros Hf. unfold replace_all.
  assert (H : forall p s st, match_here fl r p s = Some st ->
                length (expand JOIN st) <= matched_len s st).
  { intros p u st E. unfold match_here in E.
    destruct (rmatch fl r (MkSt p u [])) as [|x l] eqn:Er; [discriminate|].
    simpl in E. injection E as ->.
    assert (Hin : In st (rmatch fl r (MkSt p u [])))
      by (rewrite Er; left; reflexivity).
    apply (flat_bound fl r Hf) in Hin. cbn [caps rest] in Hin.
    pose proof (expand_JOIN_le st). unfold matched_len.
    change (capsum []) with 0 in Hin.
    apply (Nat.le_trans _ _ _ (expand_JOIN_le st)). lia. }
  pose proof (replace_go_length fl r JOIN H s None 0). lia.
Qed.

Lemma squeeze_go_length p b s : length (squeeze_go p b s) <= length s.
Proof.
  revert b. induction s as [|c s IH]; intros b; simpl; [lia|].
  pose proof (IH true). pose proof (IH false).
  destruct (p c); [destruct b|]; simpl; lia.
Qed.

Lemma replace_plus_length fl neg items s :
  length (replace_all fl (Plus (Class neg items)) SPACE s) <= length s.
Proof. rewrite replace_plus_class. apply squeeze_go_length. Qed.

Lemma run_passes_length ps :
  Forall pass_short ps -> forall s, length (run_passes ps s) <= length s.
Proof.
  unfold run_passes. induction ps as [|p ps IH]; intros H s; simpl; [lia|].
  inversion H; subst. specialize (IH H3 (apply_pass s p)).
  specialize (H2 s). lia.
Qed.

Lemma stageA_short : Forall pass_short stageA.
Proof.
  unfold stageA.
  repeat (constructor; [intros s; first [apply replace_nil_length
                                        | apply replace_plus_length]|]).
  constructor.
Qed.

Lemma stageC_short : Forall pass_short stageC.
Proof.
  unfold stageC.
  repeat (constructor;
          [intros s; first [apply replace_nil_length
                           | apply replace_plus_length
                           | apply replace_JOIN_length; reflexivity]|]).
  constructor.
Qed.

Lemma trimStart_length s : length (trimStart s) <= length s.
Proof.
  induction s as [|c s IH]; simpl; [lia|]. destruct (isSpace c); simpl; lia.
Qed.

Lemma trim_length s : length (trim s) <= length s.
Proof.
  unfold trim, trimEnd. rewrite length_rev.
  pose proof (trimStart_length (rev (trimStart s))).
  pose proof (trimStart_length s). rewrite length_rev in *. lia.
Qed.

Lemma normalizeVariables_length line :
  length (normalizeVariables line) <= length line.
Proof.
  unfold normalizeVariables.
  pose proof (trim_length (run_passes stageC line)).
  pose proof (run_passes_length stageC stageC_short line). lia.
Qed.

Lemma join_length l : length (join [LF] l) = joined_length l.
Proof.
  unfold joined_length. induction l as [|x l IH]; [reflexivity|].
  destruct l as [|y l]; [simpl; lia|].
  change (join [LF] (x :: y :: l)) with (x ++ [LF] ++ join [LF] (y :: l)).
  rewrite !length_app, IH. simpl. lia.
Qed.

Lemma joined_map f l :
  (forall x, length (f x) <= length x) ->
  joined_length (map f l) <= joined_length l.
Proof.
  intros H. unfold joined_length. rewrite length_map.
  assert (list_sum (map (@length unit16) (map f l))
          <= list_sum (map (@length unit16) l)).
  { induction l as [|x l IH]; simpl; [lia|]. specialize (H x). lia. }
  unfold jsstring in *. lia.
Qed.

Lemma joined_filter f l : joined_length (filter f l) <= joined_length l.
Proof.
  unfold joined_length.
  assert (list_sum (map (@length unit16) (filter f l))
          <= list_sum (map (@length unit16) l)
          /\ length (filter f l) <= length l).
  { induction l as [|x l IH]; simpl; [lia|]. destruct (f x); simpl; lia. }
  unfold jsstring in *. lia.
Qed.

Lemma split_go_joined fl r :
  (forall p s st, match_here fl r p s = Some st -> matched_len s st <> 0) ->
  forall s p skip acc,
    joined_length (split_go fl r p s skip acc) <= length acc + (length s - skip).
Proof.
  intros H. unfold joined_length.
  induction s as [|c s IH]; intros p skip acc.
  - simpl. rewrite length_rev. lia.
  - destruct skip as [|k]; cbn [split_go].
    + destruct (match_here fl r p (c :: s)) as [st|] eqn:E.
      * apply H in E. destruct (matched_len (c :: s) st) as [|k]; [contradiction|].
        specialize (IH (Some c) k []).
        pose proof (split_go_length fl r s (Some c) k []) as L.
        cbn [map list_sum length]. rewrite length_rev. simpl in *. lia.
      * specialize (IH (Some c) 0 (c :: acc)). simpl in *. lia.
    + specialize (IH (Some c) k acc). simpl in *. lia.
Qed.

Lemma newline_progress p s st :
  match_here f_ re_newline p s = Some st -> matched_len s st <> 0.
Proof.
  unfold match_here. intros E.
  destruct (rmatch f_ re_newline (MkSt p s [])) as [|x l] eqn:Er; [discriminate|].
  simpl in E. injection E as ->.
  assert (Hin : In st (rmatch f_ re_newline (MkSt p s [])))
    by (rewrite Er; left; reflexivity).
  unfold re_newline, seqs in Hin. cbn [fold_right rmatch] in Hin.
  apply in_flat_map in Hin. destruct Hin as (s1 & H1 & Hin).
  apply in_flat_map in Hin. destruct Hin as (s2 & H2 & Hin).
  destruct Hin as [<-|[]].
  assert (L1 : length (rest s1) <= length s).
  { apply (rmatch_length f_ (Opt (Chr CR)) (MkSt p s []) s1). exact H1. }
  apply consume_length in H2. unfold matched_len. lia.
Qed.

Lemma lines_joined text : joined_length (lines text) <= length text.
Proof.
  unfold lines, split. destruct text as [|c s]; [reflexivity|].
  pose proof (split_go_joined f_ re_newline newline_progress (c :: s) None 0 []) as H.
  cbn [length] in *. unfold jsstring in *. lia.
Qed.

Lemma sanitizeFrom_length ps raw : length (sanitizeFrom ps raw) <= length raw.
Proof.
  unfold sanitizeFrom, filteredLines.
  rewrite filterLines_fst_filter.
  pose proof (trim_length (join [LF] (map normalizeVariables
                 (filter keep (map trim (lines (cleaned raw))))))) as H1.
  rewrite join_length in H1.
  pose proof (joined_map normalizeVariables
                (filter keep (map trim (lines (cleaned raw))))
                normalizeVariables_length) as H2.
  pose proof (joined_filter keep (map trim (lines (cleaned raw)))) as H3.
  pose proof (joined_map trim (lines (cleaned raw)) trim_length) as H4.
  pose proof (lines_joined (cleaned raw)) as H5.
  pose proof (run_passes_length stageA stageA_short raw) as H6.
  unfold cleaned, jsstring in *. lia.
Qed.

Lemma sanitizeOutput_no_dollar raw :
  Forall (fun c => (c =? 36)%N = false) (sanitizeOutput raw).
Proof.
  unfold sanitizeOutput. destruct raw as [|a raw]; [constructor|].
  unfold sanitizeFrom. apply finish_ok; [reflexivity | reflexivity|].
  apply filteredLines_ok.
  change (cleaned (a :: raw)) with
    (run_passes (skipn 2 stageA) (strip_dollar (strip_brackets (a :: raw)))).
  apply run_passes_ok; [|apply dollar_erased].
  unfold stageA, pass_ok. simpl.
  repeat (constructor; [simpl; repeat constructor|]). constructor.
Qed.

Lemma sanitizeOutput_length raw : length (sanitizeOutput raw) <= length raw.
Proof.
  unfold sanitizeOutput. destruct raw as [|a raw]; [simpl; lia|].
  apply sanitizeFrom_length.
Qed.

Lemma solve_result SP client rb s :
  result_of (fst (solve SP client rb)) = Some s ->
  status (fst (solve SP client rb)) = 200
  /\ exists b raw,
       rb = Some b
       /\ client (build SP b) = Resolved raw
       /\ s = sanitizeOutput (if truthy raw then toText raw else [])
       /\ length s <= length (toText raw).
Proof.
  unfold solve. destruct rb as [b|]; [|discriminate].
  destruct (negb (truthy (prompt b)) && negb (truthy (image b)));
    [discriminate|].
  destruct (client (build SP b)) as [| |content] eqn:Ec;
    [discriminate|discriminate|].
  destruct content as [|[|c u]|[|] t]; cbn [truthy fst result_of sent];
    try discriminate; intros [= <-]; (split; [reflexivity|]); exists b;
    eexists; (split; [reflexivity|]); (split; [exact Ec|]);
    (split; [reflexivity|]).
  - simpl. lia.
  - simpl. lia.
  - apply (sanitizeOutput_length (c :: u)).
  - simpl. lia.
Qed.

(** ** Line 81 on a single line *)

Lemma star_consume_inv g f q :
  (forall st, f st = consume st q) ->
  forall n st y,
    In y (star_loop g f n st) ->
    exists A, rest st = A ++ rest y /\ Forall (fun c => q c = true) A.
Proof.
  intros Hf. induction n as [|n IH]; intros st y H; simpl in H.
  - destruct H as [<-|[]]. exists []. split; [reflexivity | constructor].
  - assert (Hmore : In y (flat_map (star_loop g f n)
                            (filter (progress st) (f st))) ->
                    exists A, rest st = A ++ rest y
                              /\ Forall (fun c => q c = true) A).
    { intros Hin. apply in_flat_map in Hin. destruct Hin as (x & Hx & Hin).
      apply filter_In in Hx. destruct Hx as [Hx _]. rewrite Hf in Hx.
      unfold consume in Hx. destruct (rest st) as [|c tl]; [destruct Hx|].
      destruct (q c) eqn:E; [|destruct Hx]. destruct Hx as [<-|[]].
      destruct (IH _ _ Hin) as (A & HA & HF). cbn [rest] in HA.
      exists (c :: A). split; [rewrite HA; reflexivity | constructor; assumption]. }
    assert (Hst : exists A, rest st = A ++ rest st
                            /\ Forall (fun c => q c = true) A)
      by (exists []; split; [reflexivity | constructor]).
    destruct g.
    + apply in_app_or in H. destruct H as [H|[<-|[]]]; auto.
    + destruct H as [<-|H]; auto.
Qed.

Lemma class_match_fm neg items c :
  class_match f_m neg items c = class_match f_ neg items c.
Proof. reflexivity. Qed.

Lemma prose_class c :
  class_match f_m true math_items c = negb (isMath c).
Proof. rewrite class_match_fm. reflexivity. Qed.

Lemma prose_no_match_at_start s :
  one_line s = true -> existsb isMath s = true ->
  match_here f_m re_prose_line None s = None.
Proof.
  intros Hl Hm. unfold match_here.
  destruct (rmatch f_m re_prose_line (MkSt None s [])) as [|y l] eqn:E;
    [reflexivity|].
  exfalso.
  assert (Hin : In y (rmatch f_m re_prose_line (MkSt None s [])))
    by (rewrite E; left; reflexivity).
  unfold re_prose_line, seqs in Hin. cbn [fold_right] in Hin.
  cbn [rmatch] in Hin.
  apply in_flat_map in Hin. destruct Hin as (s1 & H1 & Hin).
  unfold guard in H1. cbn [at_bol prev] in H1. destruct H1 as [<-|[]].
  apply in_flat_map in Hin. destruct Hin as (s2 & H2 & Hin).
  apply in_flat_map in Hin. destruct Hin as (s3 & H3 & Hin).
  cbn [rest] in H2.
  apply (star_consume_inv true _ (class_match f_m true math_items)) in H2;
    [|reflexivity].
  destruct H2 as (A & HA & HF). cbn [rest] in HA.
  unfold guard in H3. destruct (at_eol f_m s2) eqn:Ee; [|destruct H3].
  unfold at_eol in Ee. destruct (rest s2) as [|c tl] eqn:Er.
  - rewrite app_nil_r in HA. subst A.
    apply existsb_exists in Hm. destruct Hm as (c & Hc & Hmc).
    rewrite Forall_forall in HF. specialize (HF c Hc).
    rewrite prose_class, Hmc in HF. discriminate.
  - cbn [multiline f_m andb] in Ee.
    apply one_line_Forall in Hl. rewrite Forall_forall in Hl.
    assert (Hc : In c s) by (rewrite HA; apply in_or_app; right; left; reflexivity).
    specialize (Hl c Hc). rewrite Ee in Hl. discriminate.
Qed.

Lemma prose_match_all s :
  mathFreeb s = true ->
  match_here f_m re_prose_line None s = Some (MkSt (last (map Some s) None) [] []).
Proof.
  intros H. apply leads_match_here.
  unfold re_prose_line, seqs. cbn [fold_right].
  eapply leads_seq; [apply leads_bol; reflexivity|].
  eapply leads_seq.
  { rewrite <- (app_nil_r s) at 1.
    apply leads_star_class; [|exact I].
    apply mathFreeb_mathFree in H. eapply Forall_impl; [|exact H].
    intros c Hc. rewrite prose_class, Hc. reflexivity. }
  eapply leads_seq; [apply leads_eol; reflexivity | apply leads_eps].
Qed.

Lemma strip_prose_line s :
  one_line s = true ->
  strip_prose s = if existsb isMath s then s else [].
Proof.
  intros Hl. unfold strip_prose, replace_all.
  destruct (existsb isMath s) eqn:Hm.
  - destruct s as [|c s]; [discriminate|].
    rewrite replace_go_miss by (apply prose_no_match_at_start; assumption).
    f_equal. unfold re_prose_line, seqs. cbn [fold_right].
    apply one_line_Forall in Hl. inversion Hl; subst.
    apply bol_blocked; [apply negb_true_iff; assumption | assumption].
  - assert (Hf : mathFreeb s = true).
    { unfold mathFreeb. apply forallb_forall. intros c Hc.
      destruct (isMath c) eqn:E; [|reflexivity].
      assert (existsb isMath s = true)
        by (apply existsb_exists; exists c; split; assumption).
      congruence. }
    destruct s as [|c s]; [reflexivity|].
    rewrite <- (app_nil_r (c :: s)) at 1.
    rewrite (replace_go_hit f_m re_prose_line [] None (c :: s) []
               (MkSt (last (map Some (c :: s)) None) [] []));
      [| discriminate | rewrite app_nil_r; apply prose_match_all, Hf | reflexivity].
    cbn [expand flat_map app].
    destruct (last_map_some (c :: s) None) as (d & -> & Hd); [discriminate|].
    apply (bol_blocked f_m _ [] [] d); [|constructor].
    apply one_line_Forall in Hl. rewrite Forall_forall in Hl.
    apply negb_true_iff, Hl, Hd.
Qed.

(** ** Statements *)

Lemma squeeze_go_ext p q b s :
  (forall c, p c = q c) -> squeeze_go p b s = squeeze_go q b s.
Proof.
  intros H. revert b. induction s as [|c s IH]; intros b; simpl; [reflexivity|].
  rewrite (H c), !IH. reflexivity.
Qed.

Lemma blank_class c :
  class_match f_ true [CNotSpace; CChar CR; CChar LF] c = blank c.
Proof.
  change (class_match f_ true [CNotSpace; CChar CR; CChar LF] c)
    with (negb (negb (isSpace c) || ((13 =? c)%N || ((10 =? c)%N || false)))).
  unfold blank. rewrite (N.eqb_sym 13 c), (N.eqb_sym 10 c).
  destruct (isSpace c), (c =? 13)%N, (c =? 10)%N; reflexivity.
Qed.

Lemma space_tab_class c :
  class_match f_ false [CChar 32%N; CChar 9%N] c = space_or_tab c.
Proof.
  change (class_match f_ false [CChar 32%N; CChar 9%N] c)
    with ((32 =? c)%N || ((9 =? c)%N || false)).
  unfold space_or_tab. rewrite (N.eqb_sym 32 c), (N.eqb_sym 9 c), orb_false_r.
  reflexivity.
Qed.

Lemma collapse_blanks_squeeze s : collapse_blanks s = squeeze blank s.
Proof.
  unfold collapse_blanks, re_blanks. rewrite replace_plus_class.
  apply squeeze_go_ext, blank_class.
Qed.

Lemma collapse_spaces_squeeze s : collapse_spaces s = squeeze space_or_tab s.
Proof.
  unfold collapse_spaces, re_spaces. rewrite replace_plus_class.
  apply squeeze_go_ext, space_tab_class.
Qed.

Lemma Forall_forallb (p : unit16 -> bool) s :
  Forall (fun c => p c = true) s -> forallb p s = true.
Proof. intros H. apply forallb_forall. rewrite Forall_forall in H. exact H. Qed.

Lemma sanitizeOutput_trim raw : trim (sanitizeOutput raw) = sanitizeOutput raw.
Proof.
  unfold sanitizeOutput. destruct raw as [|a raw]; [reflexivity|].
  unfold sanitizeFrom. apply trim_idem.
Qed.

Lemma no_dollar_existsb s :
  Forall (fun c => (c =? 36)%N = false) s -> existsb (N.eqb 36) s = false.
Proof.
  intros H. destruct (existsb (N.eqb 36) s) eqn:E; [|reflexivity].
  apply existsb_exists in E. destruct E as (c & Hc & E).
  rewrite Forall_forall in H. specialize (H c Hc).
  rewrite N.eqb_sym in E. congruence.
Qed.

(** X3.  The filter callback decides by three tests only: a line is kept
    exactly when it is not empty (line 104), passes the test of line 110 on
    words and math symbols, and passes the test of lines 113-114 on
    descriptive words.  The tests of lines 117-129 (True/False, choice
    letter, equipment, method, formula pattern) never change the decision. *)
Theorem X3_keep_three_tests (line : jsstring) :
  keep line =
  match line with
  | [] => false
  | _ => negb (sparse line) && negb (descriptive line)
  end.
Proof. apply keep_three_tests. Qed.

(** X4.  Every line that the filter keeps holds a character of the
    math-symbol allow-list and is trimmed, whatever the state of the
    pattern objects. *)
Theorem X4_kept_lines (ps : patState) (text : jsstring) :
  Forall (fun l => existsb isMath l = true /\ trim l = l) (filteredLines ps text).
Proof. apply filteredLines_kept. Qed.

(** X5.  The pass of line 67 deletes the dollar signs and nothing else. *)
Theorem X5_dollar_pass_is_filter (s : jsstring) :
  strip_dollar s = filter (fun c => negb (c =? 36)%N) s.
Proof. apply strip_dollar_filter. Qed.

(** X6.  No backtick and no tilde is left in the result (line 158). *)
Theorem X6_no_ticks (raw : jsstring) :
  forallb (fun c => negb (tick c)) (sanitizeOutput raw) = true.
Proof. apply Forall_forallb, sanitizeOutput_no_ticks. Qed.

(** X7.  The passes of lines 91 and 161 replace every maximal run of
    their character set by one space: white space other than CR and LF for
    line 91, space and tab for line 161. *)
Theorem X7_collapse_is_squeeze (s : jsstring) :
  collapse_blanks s = squeeze blank s
  /\ collapse_spaces s = squeeze space_or_tab s.
Proof. split; [apply collapse_blanks_squeeze | apply collapse_spaces_squeeze]. Qed.

(** X8.  The only white-space code units of the result are space, CR and
    LF: tabs, no-break spaces and the like are replaced by line 91. *)
Theorem X8_plain_white_space (raw : jsstring) :
  forallb plain_space (sanitizeOutput raw) = true.
Proof. apply Forall_forallb, sanitizeOutput_plain. Qed.

(** X9.  The result never holds two spaces in a row (line 161). *)
Theorem X9_no_double_space (raw : jsstring) :
  no_double_space (sanitizeOutput raw) = true.
Proof. apply sanitizeOutput_no_double. Qed.

(** X10.  The result is never longer than the input. *)
Theorem X10_never_longer (raw : jsstring) :
  length (sanitizeOutput raw) <= length raw.
Proof. apply sanitizeOutput_length. Qed.

(** X11.  The pass of line 68 deletes a macro [\text{A}] with its
    content, when [A] has no closing brace and no backslash precedes the
    macro. *)
Theorem X11_text_macro_deleted (pre A post : jsstring) :
  lacks 92%N pre = true -> lacks 125%N A = true ->
  strip_text (pre ++ text_macro A ++ post) = pre ++ strip_text post.
Proof. apply strip_text_cut. Qed.

Lemma X11_text_macro_deleted_witness :
  lacks 92%N (js "v = 3 ") = true /\ lacks 125%N (js "m/s") = true
  /\ strip_text (js "v = 3 " ++ text_macro (js "m/s") ++ js " + 1")
     = js "v = 3 " ++ strip_text (js " + 1").
Proof.
  split; [reflexivity|]. split; [reflexivity|].
  apply (X11_text_macro_deleted (js "v = 3 ") (js "m/s") (js " + 1"));
    reflexivity.
Defined.

(** X12.  The pass of line 71 deletes a line from its first [//] to its
    end: [pre] holds no [//], also not together with the slash that follows
    it, [tail] is the rest of the line, and [post] is empty or starts with the
    line terminator. *)
Theorem X12_line_comment_deleted (pre tail post : jsstring) :
  occurs (js "//") (pre ++ js "/") = false ->
  one_line tail = true -> at_line_end post = true ->
  strip_line_comment (pre ++ js "//" ++ tail ++ post)
  = pre ++ strip_line_comment post.
Proof. apply strip_line_comment_cut. Qed.

Lemma X12_line_comment_deleted_witness :
  occurs (js "//") (js "a = 7/2 " ++ js "/") = false
  /\ one_line (js " half") = true /\ at_line_end (LF :: js "b = 1") = true
  /\ strip_line_comment (js "a = 7/2 " ++ js "//" ++ js " half" ++ LF :: js "b = 1")
     = js "a = 7/2 " ++ strip_line_comment (LF :: js "b = 1").
Proof.
  split; [reflexivity|]. split; [reflexivity|]. split; [reflexivity|].
  apply (X12_line_comment_deleted (js "a = 7/2 ") (js " half") (LF :: js "b = 1"));
    reflexivity.
Defined.

(** X13.  A text without [//] passes line 71 unchanged: the single slash of
    a plain fraction is kept. *)
Theorem X13_single_slash_kept (s : jsstring) :
  occurs (js "//") s = false -> strip_line_comment s = s.
Proof. apply strip_line_comment_keeps. Qed.

Lemma X13_single_slash_kept_witness :
  occurs (js "//") (js "a = 18/6") = false
  /\ strip_line_comment (js "a = 18/6") = js "a = 18/6".
Proof.
  split; [reflexivity|].
  apply (X13_single_slash_kept (js "a = 18/6")). reflexivity.
Defined.

(** X14.  The pass of line 73 deletes a line from its first [#] to its
    end. *)
Theorem X14_hash_comment_deleted (pre tail post : jsstring) :
  lacks 35%N pre = true -> one_line tail = true -> at_line_end post = true ->
  strip_hash (pre ++ js "#" ++ tail ++ post) = pre ++ strip_hash post.
Proof. apply strip_hash_cut. Qed.

Lemma X14_hash_comment_deleted_witness :
  lacks 35%N (js "n = 3 ") = true /\ one_line (js " apples") = true
  /\ at_line_end [] = true
  /\ strip_hash (js "n = 3 " ++ js "#" ++ js " apples" ++ [])
     = js "n = 3 " ++ strip_hash [].
Proof.
  split; [reflexivity|]. split; [reflexivity|]. split; [reflexivity|].
  apply (X14_hash_comment_deleted (js "n = 3 ") (js " apples") []); reflexivity.
Defined.

(** X15.  On a line that starts with digits and a dot, the pass of line 75
    deletes the digits, the dot and the white space after it, whether they
    are a step number or the integer part of a decimal number. *)
Theorem X15_leading_number_deleted (d : unit16) (ds rest : jsstring) :
  isDigit d = true -> forallb isDigit ds = true -> one_line rest = true ->
  strip_numbering (d :: ds ++ 46%N :: rest) = trimStart rest.
Proof. apply strip_numbering_line. Qed.

Lemma X15_leading_number_deleted_witness :
  isDigit 51%N = true /\ forallb isDigit [] = true /\ one_line (js "14") = true
  /\ strip_numbering (js "3.14") = js "14".
Proof.
  split; [reflexivity|]. split; [reflexivity|]. split; [reflexivity|].
  apply (X15_leading_number_deleted 51%N [] (js "14")); reflexivity.
Defined.

(** X16.  The pass of line 66 changes nothing in a text in which no opening
    bracket is followed at once by a closing bracket or by a backslash and a
    closing bracket: LaTeX delimiters around a formula stay. *)
Theorem X16_brackets_around_text_kept (s : jsstring) :
  occurs (js "[]") s = false -> occurs (js "[\]") s = false ->
  strip_brackets s = s.
Proof. apply strip_brackets_keeps. Qed.

Lemma X16_brackets_around_text_kept_witness :
  occurs (js "[]") (js "\[E = mc^2\]") = false
  /\ occurs (js "[\]") (js "\[E = mc^2\]") = false
  /\ strip_brackets (js "\[E = mc^2\]") = js "\[E = mc^2\]".
Proof.
  split; [reflexivity|]. split; [reflexivity|].
  apply (X16_brackets_around_text_kept (js "\[E = mc^2\]")); reflexivity.
Defined.

(** X17.  Splitting a text without CR into lines (line 100) and joining the
    lines with line feeds (line 169) gives the text back. *)
Theorem X17_lines_join (text : jsstring) :
  lacks 13%N text = true -> join [LF] (lines text) = text.
Proof. apply lines_join. Qed.

Lemma X17_lines_join_witness :
  lacks 13%N (nl (js "a = 1") (js "b = 2")) = true
  /\ join [LF] (lines (nl (js "a = 1") (js "b = 2"))) = nl (js "a = 1") (js "b = 2").
Proof.
  split; [reflexivity|].
  apply (X17_lines_join (nl (js "a = 1") (js "b = 2"))). reflexivity.
Defined.

(** X18.  On a text of one line, the pass of line 81 gives the empty string
    when the line holds no character of the math-symbol allow-list, and the
    line itself when it holds one. *)
Theorem X18_prose_line_blanked (s : jsstring) :
  one_line s = true ->
  strip_prose s = if existsb isMath s then s else [].
Proof. apply strip_prose_line. Qed.

Lemma X18_prose_line_blanked_witness :
  one_line (js "True") = true
  /\ strip_prose (js "True") = if existsb isMath (js "True") then js "True" else [].
Proof.
  split; [reflexivity|]. apply (X18_prose_line_blanked (js "True")). reflexivity.
Defined.

(** X19.  [normalizeVariables] returns a trimmed line that is not longer
    than its argument, has no two spaces in a row, no backtick and no tilde,
    and is made of code units of the argument and of spaces. *)
Theorem X19_normalizeVariables_contract (line : jsstring) :
  trim (normalizeVariables line) = normalizeVariables line
  /\ length (normalizeVariables line) <= length line
  /\ no_double_space (normalizeVariables line) = true
  /\ forallb (fun c => negb (tick c)) (normalizeVariables line) = true
  /\ Forall (fun c => In c line \/ c = 32%N) (normalizeVariables line).
Proof.
  split; [apply trim_idem|]. split; [apply normalizeVariables_length|].
  split; [apply normalizeVariables_no_double|].
  split; [apply Forall_forallb, normalizeVariables_no_ticks|].
  apply normalizeVariables_ok; [right; reflexivity|].
  apply Forall_forall. intros c Hc. left. exact Hc.
Qed.

(** X20.  The text after the chain of lines 64-91 is not longer than the
    input, holds no dollar sign, no white space other than space, CR and LF,
    and no two spaces in a row. *)
Theorem X20_cleaned_contract (raw : jsstring) :
  length (cleaned raw) <= length raw
  /\ existsb (N.eqb 36) (cleaned raw) = false
  /\ forallb plain_space (cleaned raw) = true
  /\ no_double_space (cleaned raw) = true.
Proof.
  split; [apply (run_passes_length stageA stageA_short)|]. split; [|split].
  - apply no_dollar_existsb.
    change (cleaned raw) with
      (run_passes (skipn 2 stageA) (strip_dollar (strip_brackets raw))).
    apply run_passes_ok; [|apply dollar_erased].
    unfold stageA, pass_ok. simpl.
    repeat (constructor; [simpl; repeat constructor|]). constructor.
  - rewrite stageA_split. apply Forall_forallb, collapse_blanks_plain.
  - rewrite stageA_split. unfold collapse_blanks, re_blanks.
    rewrite replace_plus_class. apply squeeze_go_no_double. reflexivity.
Qed.

(** X22.  A reply with a result has status 200; a body was parsed, the
    call resolved with a response object, and the result is the sanitized
    content of the response (the empty string when the content is missing or
    falsy): it is trimmed, holds no dollar sign and is not longer than the
    content. *)
Theorem X22_handler_result (SP : jsstring) (client : request -> outcome)
    (req_body : option body) (s : jsstring) :
  result_of (fst (solve SP client req_body)) = Some s ->
  status (fst (solve SP client req_body)) = 200
  /\ (exists b raw,
        req_body = Some b
        /\ client (build SP b) = Resolved raw
        /\ s = sanitizeOutput (if truthy raw then toText raw else [])
        /\ length s <= length (toText raw))
  /\ trim s = s
  /\ existsb (N.eqb 36) s = false.
Proof.
  intros H.
  destruct (solve_result SP client req_body s H)
    as (H1 & b & raw & Hb & H2 & H3 & H4).
  split; [exact H1|]. split; [exists b, raw; repeat split; assumption|].
  rewrite H3. split; [apply sanitizeOutput_trim|].
  apply no_dollar_existsb, sanitizeOutput_no_dollar.
Qed.

Lemma X22_handler_result_witness :
  result_of (fst (solve [] (fun _ => Resolved (VString (js "$x = 1$ ")))
                       (Some (Body VAbsent (VString (js "solve x")) VAbsent))))
  = Some (js "x = 1")
  /\ status (fst (solve [] (fun _ => Resolved (VString (js "$x = 1$ ")))
                        (Some (Body VAbsent (VString (js "solve x")) VAbsent)))) = 200
  /\ trim (js "x = 1") = js "x = 1".
Proof.
  assert (H : result_of (fst (solve [] (fun _ => Resolved (VString (js "$x = 1$ ")))
                                   (Some (Body VAbsent (VString (js "solve x")) VAbsent))))
              = Some (js "x = 1")) by (vm_compute; reflexivity).
  split; [exact H|].
  destruct (X22_handler_result _ _ _ _ H) as (H1 & _ & H2 & _).
  split; assumption.
Defined.

(** ** Further passes *)

(** ** Line 89 *)

Lemma bullet_class c : class_match f_m false bullet_items c = is_bullet c.
Proof.
  change (class_match f_m false bullet_items c)
    with ((8226 =? c)%N || ((42 =? c)%N || ((45 =? c)%N || false))).
  unfold is_bullet.
  rewrite (N.eqb_sym 8226 c), (N.eqb_sym 42 c), (N.eqb_sym 45 c), orb_false_r.
  apply orb_assoc.
Qed.

Lemma bullet_cases b :
  is_bullet b = true -> isSpace b = false /\ isLineTerminator b = false.
Proof.
  unfold is_bullet. intros H.
  apply orb_prop in H. destruct H as [H|H];
    [apply orb_prop in H; destruct H as [H|H]|];
    apply N.eqb_eq in H; subst b; split; reflexivity.
Qed.

Lemma bullet_leads b w rest :
  is_bullet b = true -> isSpace w = true ->
  leads f_m re_bullet_start (MkSt None (b :: w :: rest) [])
    (MkSt (last (map Some (takeRun (class_match f_m false [CSpace]) rest)) (Some w))
          (trimStart rest) []).
Proof.
  intros Hb Hw. unfold re_bullet_start, seqs. cbn [fold_right].
  eapply leads_seq; [apply leads_bol; reflexivity|].
  eapply leads_seq.
  { apply (leads_star_class f_m false [CSpace] [] None (b :: w :: rest) []);
      [constructor|]. rewrite sp_class. apply bullet_cases, Hb. }
  cbn [map last].
  eapply leads_seq; [apply leads_class; rewrite bullet_class; exact Hb|].
  eapply leads_seq; [|apply leads_eps].
  rewrite <- (dropRun_sp rest). unfold sp.
  apply leads_plus_class. rewrite sp_class. exact Hw.
Qed.

Lemma strip_bullet_line b w rest :
  is_bullet b = true -> isSpace w = true -> one_line (w :: rest) = true ->
  strip_bullet_start (b :: w :: rest) = trimStart rest.
Proof.
  intros Hb Hw Hl. unfold strip_bullet_start, replace_all.
  set (qs := class_match f_m false [CSpace]).
  set (m := b :: w :: takeRun qs rest).
  assert (Hsplit : b :: w :: rest = m ++ trimStart rest).
  { unfold m. cbn [app]. rewrite <- (dropRun_sp rest). fold qs.
    rewrite takeRun_dropRun. reflexivity. }
  apply one_line_Forall in Hl. inversion Hl as [|x l Hw' Hrest]; subst.
  rewrite Hsplit.
  rewrite (replace_go_hit f_m re_bullet_start [] None m (trimStart rest)
             (MkSt (last (map Some (takeRun qs rest)) (Some w))
                   (trimStart rest) [])).
  - cbn [expand flat_map app].
    destruct (last_map_some m None) as (c & -> & Hc); [discriminate|].
    unfold re_bullet_start, seqs. cbn [fold_right].
    apply (bol_blocked f_m).
    + unfold m in Hc. destruct Hc as [<-|[<-|Hc]].
      * apply bullet_cases, Hb.
      * apply negb_true_iff, Hw'.
      * apply takeRun_incl in Hc. rewrite Forall_forall in Hrest.
        apply negb_true_iff, Hrest, Hc.
    + apply trimStart_ok. exact Hrest.
  - discriminate.
  - rewrite <- Hsplit. apply leads_match_here, bullet_leads; assumption.
  - reflexivity.
Qed.

(** ** Line 72 *)

Lemma any_class c : class_match f_ false [CSpace; CNotSpace] c = true.
Proof.
  change (class_match f_ false [CSpace; CNotSpace] c)
    with (isSpace c || (negb (isSpace c) || false)).
  destruct (isSpace c); reflexivity.
Qed.

(** A lazy star over any code unit, followed by [r2]: the first match ends
    where [r2] first succeeds. *)
Lemma lazy_any_first r2 y :
  forall bd p tl cs n,
    length (bd ++ tl) <= n ->
    (forall u v q, bd = u ++ v -> v <> [] ->
       rmatch f_ r2 (MkSt q (v ++ tl) cs) = []) ->
    (forall q, leads f_ r2 (MkSt q tl cs) y) ->
    exists more,
      flat_map (rmatch f_ r2)
        (star_loop false (rmatch f_ (Class false [CSpace; CNotSpace])) n
           (MkSt p (bd ++ tl) cs))
      = y :: more.
Proof.
  induction bd as [|a bd IH]; intros p tl cs n Hn Hfail Hlead.
  - cbn [app]. destruct (Hlead p) as [m E].
    destruct n as [|n]; cbn [star_loop flat_map]; rewrite E; eexists; reflexivity.
  - destruct n as [|n]; [simpl in Hn; lia|].
    simpl in Hn. apply le_S_n in Hn.
    cbn [star_loop flat_map].
    rewrite (Hfail [] (a :: bd) p eq_refl) by discriminate.
    cbn [app].
    assert (Hstep : rmatch f_ (Class false [CSpace; CNotSpace])
                      (MkSt p (a :: bd ++ tl) cs)
                    = [MkSt (Some a) (bd ++ tl) cs]).
    { cbn [rmatch]. unfold consume. cbn [rest caps]. rewrite any_class.
      reflexivity. }
    rewrite Hstep. cbn [filter]. rewrite progress_cons. cbn [flat_map].
    rewrite app_nil_r. apply IH; [exact Hn | | exact Hlead].
    intros u v q E Hv. apply (Hfail (a :: u) v q); [rewrite E; reflexivity | exact Hv].
Qed.

Lemma block_comment_leads p bd post :
  occurs (js "*/") (bd ++ js "*") = false ->
  leads f_ re_block_comment
        (MkSt p (js "/*" ++ bd ++ js "*/" ++ post) [])
        (MkSt (Some 47%N) post []).
Proof.
  intros Hb. unfold re_block_comment, seqs. cbn [fold_right].
  eapply leads_seq; [apply (leads_litu (js "/*"))|].
  unfold leads.
  apply (lazy_any_first (Seq (litu (js "*/")) Eps) (MkSt (Some 47%N) post [])
           bd (last (map Some (js "/*")) p) (js "*/" ++ post) []
           (length (bd ++ js "*/" ++ post))); [apply Nat.le_refl | |].
  - intros u v q E Hv. apply rmatch_seq_fail.
    apply rmatch_litu_fail; [reflexivity|]. cbn [rest].
    rewrite E, <- app_assoc in Hb. apply occurs_app, occurs_starts in Hb.
    replace (v ++ js "*/" ++ post) with ((v ++ js "*") ++ (js "/" ++ post))
      by (rewrite <- app_assoc; reflexivity).
    rewrite starts_app; [exact Hb|].
    rewrite length_app. destruct v; [contradiction | simpl; lia].
  - intros q. eapply leads_seq; [apply (leads_litu (js "*/"))|apply leads_eps].
Qed.

Lemma strip_block_comment_cut pre bd post :
  occurs (js "/*") (pre ++ js "/") = false ->
  occurs (js "*/") (bd ++ js "*") = false ->
  strip_block_comment (pre ++ js "/*" ++ bd ++ js "*/" ++ post)
  = pre ++ strip_block_comment post.
Proof.
  intros Hpre Hb. unfold strip_block_comment.
  replace (js "/*" ++ bd ++ js "*/" ++ post)
    with ((js "/*" ++ bd ++ js "*/") ++ post)
    by (rewrite <- !app_assoc; reflexivity).
  apply replace_all_cut; [reflexivity | discriminate | |].
  - intros u c v q E. unfold match_here, re_block_comment.
    change (lit "/*") with (litu (js "/*")). unfold seqs. cbn [fold_right].
    rewrite rmatch_seq_fail; [reflexivity|].
    apply rmatch_litu_fail; [reflexivity|]. cbn [rest].
    rewrite E, <- app_assoc in Hpre. apply occurs_app, occurs_starts in Hpre.
    cbn [app] in Hpre.
    replace (c :: v ++ (js "/*" ++ bd ++ js "*/") ++ post)
      with ((c :: v ++ js "/") ++ (js "*" ++ bd ++ js "*/" ++ post))
      by (cbn [app]; rewrite <- !app_assoc; reflexivity).
    rewrite starts_app; [exact Hpre|].
    simpl. rewrite length_app. simpl. lia.
  - intros p. exists (Some 47%N). apply leads_match_here.
    rewrite <- !app_assoc. apply block_comment_leads, Hb.
Qed.

(** ** Line 87 *)

Lemma punct_class c : class_match f_m false (chars ";:") c = is_punct c.
Proof.
  change (class_match f_m false (chars ";:") c)
    with ((59 =? c)%N || ((58 =? c)%N || false)).
  unfold is_punct. rewrite (N.eqb_sym 59 c), (N.eqb_sym 58 c), orb_false_r.
  reflexivity.
Qed.

Lemma space_not_punct c : isSpace c = true -> is_punct c = false.
Proof.
  intros H. unfold is_punct.
  destruct (c =? 59)%N eqn:E1; [apply N.eqb_eq in E1; subst c; discriminate|].
  destruct (c =? 58)%N eqn:E2; [apply N.eqb_eq in E2; subst c; discriminate|].
  reflexivity.
Qed.

(** Every prefix of a run is a result of the greedy star. *)
Lemma star_class_in fl neg items :
  forall A p tl cs n,
    Forall (fun c => class_match fl neg items c = true) A ->
    length A <= n ->
    In (MkSt (last (map Some A) p) tl cs)
       (star_loop true (rmatch fl (Class neg items)) n (MkSt p (A ++ tl) cs)).
Proof.
  induction A as [|a A IH]; intros p tl cs n HA Hn.
  - cbn [app map last]. destruct n; cbn [star_loop]; [left; reflexivity|].
    apply in_or_app. right. left. reflexivity.
  - inversion HA; subst. destruct n as [|n]; [simpl in Hn; lia|].
    simpl in Hn. apply le_S_n in Hn.
    cbn [star_loop app]. apply in_or_app. left.
    assert (Hstep : rmatch fl (Class neg items) (MkSt p (a :: A ++ tl) cs)
                    = [MkSt (Some a) (A ++ tl) cs]).
    { cbn [rmatch]. unfold consume. cbn [rest caps]. rewrite H1. reflexivity. }
    rewrite Hstep. cbn [filter]. rewrite progress_cons. cbn [flat_map].
    rewrite app_nil_r. cbn [map]. rewrite last_shift. apply IH; assumption.
Qed.

Lemma leads_look fl r st :
  groupfree r = true -> rmatch fl r st <> [] -> leads fl (Look r) st st.
Proof.
  intros Hg Hne. exists []. cbn [rmatch].
  destruct (rmatch fl r st) as [|y l] eqn:E; [contradiction|].
  assert (Hc : caps y = caps st).
  { apply (groupfree_caps fl r Hg st y). rewrite E. left. reflexivity. }
  rewrite Hc. destruct st; reflexivity.
Qed.

Lemma trailing_punct_leads p c ws tail :
  is_punct c = true -> forallb isSpace ws = true -> at_line_end tail = true ->
  leads f_m re_trailing_punct (MkSt p (c :: ws ++ tail) [])
        (MkSt (Some c) (ws ++ tail) []).
Proof.
  intros Hc Hws Ht. unfold re_trailing_punct, seqs. cbn [fold_right].
  eapply leads_seq; [apply leads_class; rewrite punct_class; exact Hc|].
  eapply leads_seq; [|apply leads_eps].
  apply leads_look; [reflexivity|].
  assert (Hin : In (MkSt (last (map Some ws) (Some c)) tail [])
                   (rmatch f_m (Seq (Star true sp) Eol)
                      (MkSt (Some c) (ws ++ tail) []))).
  { cbn [rmatch rest]. apply in_flat_map.
    exists (MkSt (last (map Some ws) (Some c)) tail []). split.
    - apply star_class_in.
      + apply Forall_forall. intros d Hd. rewrite sp_class.
        rewrite forallb_forall in Hws. apply Hws, Hd.
      + rewrite length_app. lia.
    - rewrite (line_end_eol _ tail [] Ht). left. reflexivity. }
  intros E. rewrite E in Hin. destruct Hin.
Qed.

Lemma punct_no_match q c tl :
  is_punct c = false -> match_here f_m re_trailing_punct q (c :: tl) = None.
Proof.
  intros H. unfold match_here, re_trailing_punct, seqs. cbn [fold_right].
  rewrite rmatch_seq_fail; [reflexivity|].
  apply rmatch_class_fail. rewrite punct_class. exact H.
Qed.

Lemma strip_trailing_punct_cut pre c ws tail :
  forallb (fun d => negb (is_punct d)) pre = true ->
  is_punct c = true -> forallb isSpace ws = true -> at_line_end tail = true ->
  strip_trailing_punct (pre ++ c :: ws ++ tail)
  = pre ++ ws ++ strip_trailing_punct tail.
Proof.
  intros Hpre Hc Hws Ht. unfold strip_trailing_punct.
  change (pre ++ c :: ws ++ tail) with (pre ++ [c] ++ (ws ++ tail)).
  rewrite replace_all_cut; [| reflexivity | discriminate | |].
  - f_equal. unfold replace_all. rewrite replace_go_copy.
    + f_equal. apply replace_go_forget. reflexivity.
    + intros q d tl Hd. apply punct_no_match, space_not_punct.
      rewrite forallb_forall in Hws. apply Hws, Hd.
  - intros u d v q E. apply punct_no_match.
    rewrite forallb_forall in Hpre. apply negb_true_iff, Hpre.
    rewrite E. apply in_or_app. right. left. reflexivity.
  - intros p. exists (Some c). apply leads_match_here.
    exact (trailing_punct_leads p c ws tail Hc Hws Ht).
Qed.

(** X23.  The pass of line 89 on one line that starts with a bullet and a
    white-space code unit: the bullet and all the white space after it are
    deleted, the rest of the line is kept as it is. *)
Theorem X23_bullet_deleted (b w : unit16) (rest : jsstring) :
  is_bullet b = true -> isSpace w = true -> one_line (w :: rest) = true ->
  strip_bullet_start (b :: w :: rest) = trimStart rest.
Proof. apply strip_bullet_line. Qed.

Lemma X23_bullet_deleted_witness :
  is_bullet 45%N = true /\ isSpace 32%N = true
  /\ one_line (32%N :: js " 3 = x") = true
  /\ strip_bullet_start (45%N :: 32%N :: js " 3 = x") = js "3 = x".
Proof.
  split; [reflexivity|]. split; [reflexivity|]. split; [reflexivity|].
  apply (X23_bullet_deleted 45%N 32%N (js " 3 = x")); reflexivity.
Defined.

(** X24.  The pass of line 87 deletes the first [;] or [:] of a text when
    only white space separates it from the end of its line; the white space
    stays.  [pre] holds neither [;] nor [:], and [tail] is empty or starts
    with the line terminator. *)
Theorem X24_trailing_punct_deleted (pre ws tail : jsstring) (c : unit16) :
  forallb (fun d => negb (is_punct d)) pre = true ->
  is_punct c = true -> forallb isSpace ws = true -> at_line_end tail = true ->
  strip_trailing_punct (pre ++ c :: ws ++ tail)
  = pre ++ ws ++ strip_trailing_punct tail.
Proof. apply strip_trailing_punct_cut. Qed.

Lemma X24_trailing_punct_deleted_witness :
  forallb (fun d => negb (is_punct d)) (js "x = 3") = true
  /\ is_punct 59%N = true /\ forallb isSpace (js " ") = true
  /\ at_line_end (LF :: js "y = 2") = true
  /\ strip_trailing_punct (js "x = 3" ++ 59%N :: js " " ++ LF :: js "y = 2")
     = js "x = 3" ++ js " " ++ strip_trailing_punct (LF :: js "y = 2").
Proof.
  split; [reflexivity|]. split; [reflexivity|]. split; [reflexivity|].
  split; [reflexivity|].
  apply (X24_trailing_punct_deleted (js "x = 3") (js " ") (LF :: js "y = 2") 59%N);
    reflexivity.
Defined.

(** X25.  The pass of line 72 deletes a block comment from its [/*] to the
    first [*/] after it, line terminators included: [pre] holds no [/*], also
    not together with the slash that follows it, and [bd] holds no [*/],
    also not together with the star that follows it. *)
Theorem X25_block_comment_deleted (pre bd post : jsstring) :
  occurs (js "/*") (pre ++ js "/") = false ->
  occurs (js "*/") (bd ++ js "*") = false ->
  strip_block_comment (pre ++ js "/*" ++ bd ++ js "*/" ++ post)
  = pre ++ strip_block_comment post.
Proof. apply strip_block_comment_cut. Qed.

Lemma X25_block_comment_deleted_witness :
  occurs (js "/*") (js "a = 1 " ++ js "/") = false
  /\ occurs (js "*/") ((js " one" ++ LF :: js "two * ") ++ js "*") = false
  /\ strip_block_comment
       (js "a = 1 " ++ js "/*" ++ (js " one" ++ LF :: js "two * ") ++ js "*/"
          ++ js " + 2")
     = js "a = 1 " ++ strip_block_comment (js " + 2").
Proof.
  split; [reflexivity|]. split; [reflexivity|].
  apply (X25_block_comment_deleted (js "a = 1 ") (js " one" ++ LF :: js "two * ")
           (js " + 2")); reflexivity.
Defined.
